(** * Process Mining Studio: the React front end (frontend/src/App.jsx)

    A shallow embedding of the [App] component: its nine state hooks, the
    handlers that update them ([onUpload], [runAnalysis], the column selects
    and the analysis check boxes), the memoised [canAnalyze] flag and the
    parts of the rendered tree that depend on server data (the preview table
    and the "Top variants" card).

    The back end (FastAPI + PM4Py) is not part of the sources; where a
    property is decided there, it is modelled from the specification in
    [Module Backend]. *)

From Stdlib Require Import ZArith.
From stdpp Require Import base option list sorting strings pretty gmap.

Local Set Warnings "-register-all".

(** ** JavaScript values *)

(** The largest integer below which every integer is a Number and prints
    as its decimal digits: [Number.MAX_SAFE_INTEGER], 2^53 - 1. *)
Definition MAX_SAFE_INTEGER : Z := 9007199254740991.

(** The Numbers of a JSON body.
    - [Int n safe]: an integer within the safe range (also [-0], which no
      code here tells from [0]);
    - [Real printed]: any other Number (a fraction, an integer beyond the
      safe range, an infinity), named by the text [String] prints for it,
      ['12.5'] or ['1e+21']; it is never zero. *)
Inductive number : Type :=
  | Int (n : Z) (safe : Is_true (Z.abs n <=? MAX_SAFE_INTEGER)%Z)
  | Real (printed : string).

(** A numeral within the safe range. *)
Notation "# n" := (Int n I) (at level 9, n at level 9, format "# n").

(** The values the component handles: JSON values as produced by
    [response.json()], plus [undefined], which only arises from reading a
    missing property or an out-of-range array index. *)
Inductive value : Type :=
  | VUndefined
  | VNull
  | VBool (b : bool)
  | VNum (x : number)
  | VStr (s : string)
  | VArr (items : list value)
  | VObj (props : list (string * value)).

(** ToBoolean: [undefined], [null], [false], [0] and [''] are falsy, every
    array and object is truthy. *)
Definition truthy (v : value) : bool :=
  match v with
  | VUndefined | VNull => false
  | VBool b => b
  | VNum (Int n _) => negb (n =? 0)%Z
  | VNum (Real _) => true
  | VStr s => negb (String.eqb s "")
  | VArr _ | VObj _ => true
  end.

(** [a && b] and [a || b] return one of their operands. *)
Definition js_and (a b : value) : value := if truthy a then b else a.
Definition js_or (a b : value) : value := if truthy a then a else b.

(** [xs[i]] on an array of strings: [undefined] out of range. *)
Definition index (xs : list string) (i : nat) : value :=
  match xs !! i with
  | Some x => VStr x
  | None => VUndefined
  end.

(** Reads back a value known to be a string into a typed state field. *)
Definition str_of (v : value) : string :=
  match v with
  | VStr s => s
  | _ => ""
  end.

(** [obj.key] on an object given by its entries (each key once): the value
    of the property, or [undefined]. *)
Fixpoint prop (key : string) (props : list (string * value)) : value :=
  match props with
  | [] => VUndefined
  | (k, v) :: rest => if String.eqb k key then v else prop key rest
  end.

(** ** Component state *)

(** The [File] chosen in the file input: its name and its bytes. *)
Record File : Type := { file_name : string; file_bytes : string }.

(** The cells of a table, as the API answers them: [null], a boolean, a
    Number or a string. *)
Inductive scalar : Type :=
  | SNull
  | SBool (b : bool)
  | SNum (x : number)
  | SStr (s : string).

(** A row of a table: an object from column name to scalar, given by its
    properties in the order they were created (each key once). *)
Definition row : Type := list (string * scalar).

(** The body of a successful [POST /upload], of the shape the API answers:
    [file_id], [columns] and [preview]. *)
Module data.
Record t : Type := {
  file_id : string;
  columns : list string;
  preview : list row;
}.
End data.

(** [mapping]: an object with exactly the four keys below. *)
Record Mapping : Type := {
  case_id : string;
  activity : string;
  timestamp : string;
  resource : string;
}.

(** The keys of the four selects. *)
Inductive key : Type := Kcase_id | Kactivity | Ktimestamp | Kresource.

Global Instance key_eq_dec : EqDecision key.
Proof. solve_decision. Defined.

(** [mapping[key]] *)
Definition get (m : Mapping) (k : key) : string :=
  match k with
  | Kcase_id => case_id m
  | Kactivity => activity m
  | Ktimestamp => timestamp m
  | Kresource => resource m
  end.

(** [{ ...prev, [key]: value }] *)
Definition set (k : key) (v : string) (prev : Mapping) : Mapping :=
  match k with
  | Kcase_id => {| case_id := v; activity := activity prev;
                   timestamp := timestamp prev; resource := resource prev |}
  | Kactivity => {| case_id := case_id prev; activity := v;
                    timestamp := timestamp prev; resource := resource prev |}
  | Ktimestamp => {| case_id := case_id prev; activity := activity prev;
                     timestamp := v; resource := resource prev |}
  | Kresource => {| case_id := case_id prev; activity := activity prev;
                    timestamp := timestamp prev; resource := v |}
  end.

(** The nine [useState] hooks of [App]. *)
Record App : Type := {
  file : option File;
  fileId : string;
  columns : list string;
  preview : list row;
  mapping : Mapping;
  analyses : list string;
  result : value;
  loading : bool;
  error : string;
}.

(** The initial values passed to [useState]. *)
Definition init : App := {|
  file := None;
  fileId := "";
  columns := [];
  preview := [];
  mapping := {| case_id := ""; activity := ""; timestamp := ""; resource := "" |};
  analyses := ["discovery"; "statistics"; "variants"];
  result := VNull;
  loading := false;
  error := "";
|}.

(** The state setters.  [setMapping] and [setAnalyses] are only ever called
    with an updater function, which React applies to the latest state. *)
Definition setFile (f : option File) (s : App) : App :=
  {| file := f; fileId := fileId s; columns := columns s; preview := preview s;
     mapping := mapping s; analyses := analyses s; result := result s;
     loading := loading s; error := error s |}.

Definition setFileId (id : string) (s : App) : App :=
  {| file := file s; fileId := id; columns := columns s; preview := preview s;
     mapping := mapping s; analyses := analyses s; result := result s;
     loading := loading s; error := error s |}.

Definition setColumns (cs : list string) (s : App) : App :=
  {| file := file s; fileId := fileId s; columns := cs; preview := preview s;
     mapping := mapping s; analyses := analyses s; result := result s;
     loading := loading s; error := error s |}.

Definition setPreview (rows : list row) (s : App) : App :=
  {| file := file s; fileId := fileId s; columns := columns s; preview := rows;
     mapping := mapping s; analyses := analyses s; result := result s;
     loading := loading s; error := error s |}.

Definition setMapping (f : Mapping -> Mapping) (s : App) : App :=
  {| file := file s; fileId := fileId s; columns := columns s; preview := preview s;
     mapping := f (mapping s); analyses := analyses s; result := result s;
     loading := loading s; error := error s |}.

Definition setAnalyses (f : list string -> list string) (s : App) : App :=
  {| file := file s; fileId := fileId s; columns := columns s; preview := preview s;
     mapping := mapping s; analyses := f (analyses s); result := result s;
     loading := loading s; error := error s |}.

Definition setResult (v : value) (s : App) : App :=
  {| file := file s; fileId := fileId s; columns := columns s; preview := preview s;
     mapping := mapping s; analyses := analyses s; result := v;
     loading := loading s; error := error s |}.

Definition setLoading (b : bool) (s : App) : App :=
  {| file := file s; fileId := fileId s; columns := columns s; preview := preview s;
     mapping := mapping s; analyses := analyses s; result := result s;
     loading := b; error := error s |}.

Definition setError (msg : string) (s : App) : App :=
  {| file := file s; fileId := fileId s; columns := columns s; preview := preview s;
     mapping := mapping s; analyses := analyses s; result := result s;
     loading := loading s; error := msg |}.

(** ** [canAnalyze] and the analyse button *)

(** [fileId && mapping.case_id && mapping.activity && mapping.timestamp &&
    analyses.length > 0]; [&&] associates to the left. *)
Definition canAnalyze (s : App) : value :=
  js_and
    (js_and
       (js_and
          (js_and (VStr (fileId s)) (VStr (case_id (mapping s))))
          (VStr (activity (mapping s))))
       (VStr (timestamp (mapping s))))
    (VBool (0 <? length (analyses s))).

(** [disabled={!canAnalyze || loading}] on the analyse button. *)
Definition analyze_disabled (s : App) : bool :=
  negb (truthy (canAnalyze s)) || loading s.

(** [disabled={!file || loading}] on the upload button. *)
Definition upload_disabled (s : App) : bool :=
  negb (bool_decide (is_Some (file s))) || loading s.

(** ** Replies of the server *)

(** [String(x)] on a Number: the decimal digits of a safe integer, the
    text that names any other Number. *)
Definition Number_toString (x : number) : string :=
  match x with
  | Int n _ => pretty n
  | Real printed => printed
  end.

(** [String(v)], as [new Error(v)] applies it to its argument; [None] when
    it throws a [TypeError].  Inside an array, [null] and [undefined] print
    as the empty string.  An object prints as ['[object Object]'] through
    [Object.prototype.toString], unless it has a [toString] property of its
    own: a JSON value is never callable, so the conversion to a primitive
    finds no method that returns one and throws. *)
Fixpoint ToString (v : value) : option string :=
  match v with
  | VUndefined => Some "undefined"
  | VNull => Some "null"
  | VBool true => Some "true"
  | VBool false => Some "false"
  | VNum x => Some (Number_toString x)
  | VStr s => Some s
  | VArr items =>
      String.concat "," <$>
        mapM (fun item =>
                match item with
                | VUndefined | VNull => Some ""
                | _ => ToString item
                end) items
  | VObj props =>
      if bool_decide ("toString" ∈ props.*1) then None
      else Some "[object Object]"
  end.

(** The message of the [TypeError] of a failed conversion to a primitive
    (the wording of V8; no property depends on it). *)
Definition TypeError_message : string :=
  "Cannot convert object to primitive value".

(** [String(value)] on a cell. *)
Definition print (x : scalar) : string :=
  match x with
  | SNull => "null"
  | SBool true => "true"
  | SBool false => "false"
  | SNum x => Number_toString x
  | SStr s => s
  end.

(** What the awaited calls of a [try] block came to.
    - [Rejected message]: [fetch] rejected (network error), or
      [response.json()] rejected on a body that is not JSON;
    - [Failed text parsed]: a response whose [ok] is false, with its body
      [text] and [JSON.parse(text)], [None] when that throws;
    - [Succeeded body]: a response whose [ok] is true and the value of
      [response.json()]. *)
Inductive reply (A : Type) : Type :=
  | Rejected (message : string)
  | Failed (text : string) (parsed : option value)
  | Succeeded (body : A).
Arguments Rejected {A} message.
Arguments Failed {A} text parsed.
Arguments Succeeded {A} body.

(** [parsed.detail ?? text]; reading [detail] off [null] throws, which the
    [catch] turns into [text], as it does the failure of [JSON.parse]. *)
Definition parseError (text : string) (parsed : option value) : value :=
  match parsed with
  | None | Some VNull | Some VUndefined => VStr text
  | Some (VObj props) =>
      match prop "detail" props with
      | VUndefined | VNull => VStr text
      | detail => detail
      end
  | Some _ => VStr text
  end.

(** The message of the error the [try] block throws, if it throws: for a
    response that is not ok, that of [new Error(await parseError(response))],
    or of the [TypeError] that [new Error] throws on a value it cannot
    convert. *)
Definition thrown {A} (r : reply A) : option string :=
  match r with
  | Rejected message => Some message
  | Failed text parsed =>
      Some (default TypeError_message (ToString (parseError text parsed)))
  | Succeeded _ => None
  end.

(** ** [onUpload] *)

(** The updater passed to [setMapping] after a successful upload. *)
Definition autofill (d : data.t) (prev : Mapping) : Mapping := {|
  case_id := str_of (js_or (js_or (VStr (case_id prev)) (index (data.columns d) 0)) (VStr ""));
  activity := str_of (js_or (js_or (VStr (activity prev)) (index (data.columns d) 1)) (VStr ""));
  timestamp := str_of (js_or (js_or (VStr (timestamp prev)) (index (data.columns d) 2)) (VStr ""));
  resource := str_of (js_or (VStr (resource prev)) (VStr ""));
|}.

(** Up to the first [await]: [None] when the handler returns at
    [if (!file) return], else the state after the three setters. *)
Definition onUpload_begin (s : App) : option App :=
  match file s with
  | None => None
  | Some _ => Some (setLoading true (setResult VNull (setError "" s)))
  end.

(** From the reply on: the rest of [try], [catch] and [finally]. *)
Definition onUpload_settle (r : reply data.t) (s : App) : App :=
  setLoading false
    match r with
    | Succeeded d =>
        setMapping (autofill d)
          (setPreview (data.preview d)
             (setColumns (data.columns d)
                (setFileId (data.file_id d) s)))
    | _ => setError ("Upload impossible: " +:+ default "" (thrown r)) s
    end.

(** One invocation of [onUpload] whose request is answered by [r]. *)
Definition onUpload (r : reply data.t) (s : App) : App :=
  match onUpload_begin s with
  | None => s
  | Some s1 => onUpload_settle r s1
  end.

(** ** [runAnalysis] *)

Definition runAnalysis_begin (s : App) : App :=
  setLoading true (setResult VNull (setError "" s)).

Definition runAnalysis_settle (r : reply value) (s : App) : App :=
  setLoading false
    match r with
    | Succeeded body => setResult body s
    | _ => setError ("Analyse impossible: " +:+ default "" (thrown r)) s
    end.

Definition runAnalysis (r : reply value) (s : App) : App :=
  runAnalysis_settle r (runAnalysis_begin s).

(** ** The selects and the check boxes *)

(** [analysisLabels]: the registry names the check boxes are rendered for,
    in the order of [Object.entries]. *)
Definition analysisLabels : list (string * string) :=
  [("discovery", "Process discovery");
   ("statistics", "Statistiques");
   ("variants", "Variants")].

(** [analyses.includes(key)] *)
Definition includes (name : string) (current : list string) : bool :=
  bool_decide (name ∈ current).

(** The updater of a check box:
    [e.target.checked ? [...current, key] : current.filter(entry => entry !== key)] *)
Definition onCheck (name : string) (checked : bool) (current : list string)
  : list string :=
  if checked then current ++ [name]
  else filter (fun entry => entry ≠ name) current.

(** [onChange] of the select of [k]. *)
Definition onSelect (k : key) (v : string) (s : App) : App :=
  setMapping (set k v) s.

(** ** The component as a transition system *)

(** The request in flight, with what the handler sent: the [FormData] of an
    upload, the JSON body of an analysis. *)
Inductive request : Type :=
  | PostUpload (f : File)
  | PostAnalyze (file_id : string) (m : Mapping) (names : list string).

(** The hooks and the request awaited, if any. *)
Record config : Type := { app : App; pending : option request }.

Definition start : config := {| app := init; pending := None |}.

(** What can happen to the mounted component. *)
Inductive event : Type :=
  | ChooseFile (f : option File)
  | Select (k : key) (v : string)
  | Toggle (name : string)
  | Submit
  | UploadSettled (r : reply data.t)
  | Analyze
  | AnalysisSettled (r : reply value).

(** One event; [None] when the rendered page does not offer it:
    - the selects are rendered only when [columns] is not empty, and their
      options are [''] and the columns;
    - there is one check box per key of [analysisLabels]; it is controlled,
      so the [checked] its change event carries is the opposite of
      [analyses.includes(key)];
    - a disabled button cannot be pressed;
    - a reply only comes to the request being awaited. *)
Definition step (e : event) (c : config) : option config :=
  let s := app c in
  match e with
  | ChooseFile f => Some {| app := setFile f s; pending := pending c |}
  | Select k v =>
      if bool_decide (columns s ≠ [] ∧ v ∈ "" :: columns s)
      then Some {| app := onSelect k v s; pending := pending c |}
      else None
  | Toggle name =>
      if bool_decide (name ∈ analysisLabels.*1)
      then Some {| app := setAnalyses (onCheck name (negb (includes name (analyses s)))) s;
                   pending := pending c |}
      else None
  | Submit =>
      if upload_disabled s then None
      else match file s, onUpload_begin s with
           | Some f, Some s1 => Some {| app := s1; pending := Some (PostUpload f) |}
           | _, _ => Some c
           end
  | UploadSettled r =>
      match pending c with
      | Some (PostUpload _) => Some {| app := onUpload_settle r s; pending := None |}
      | _ => None
      end
  | Analyze =>
      if analyze_disabled s then None
      else Some {| app := runAnalysis_begin s;
                   pending := Some (PostAnalyze (fileId s) (mapping s) (analyses s)) |}
  | AnalysisSettled r =>
      match pending c with
      | Some (PostAnalyze _ _ _) => Some {| app := runAnalysis_settle r s; pending := None |}
      | _ => None
      end
  end.

(** A sequence of events, oldest first. *)
Fixpoint run (tr : list event) (c : config) : option config :=
  match tr with
  | [] => Some c
  | e :: rest =>
      match step e c with
      | Some c1 => run rest c1
      | None => None
      end
  end.

(** The states the mounted component can be in, with a history. *)
Definition reachable (tr : list event) (c : config) : Prop :=
  run tr start = Some c.

(** The bodies of the uploads that succeeded, oldest first. *)
Fixpoint uploads (tr : list event) : list data.t :=
  match tr with
  | [] => []
  | UploadSettled (Succeeded d) :: rest => d :: uploads rest
  | _ :: rest => uploads rest
  end.

(** ** What is rendered from server data *)

(** The value of a decimal numeral, [None] when a character is not a
    digit. *)
Fixpoint digits (s : string) (acc : N) : option N :=
  match s with
  | EmptyString => Some acc
  | String c rest =>
      let d := Ascii.N_of_ascii c in
      if (48 <=? d)%N && (d <=? 57)%N
      then digits rest (10 * acc + (d - 48))%N
      else None
  end.

(** An array index: a key that is the canonical numeral (no sign, no
    leading zero) of an integer below 2^32 - 1. *)
Definition array_index (k : string) : option N :=
  match k with
  | EmptyString => None
  | _ =>
      match digits k 0 with
      | Some n =>
          if (n <=? 4294967294)%N && String.eqb (pretty n) k then Some n
          else None
      | None => None
      end
  end.

(** Sorting by ascending index, by insertion. *)
Fixpoint insert_by_index {A} (x : N * A) (sorted : list (N * A)) : list (N * A) :=
  match sorted with
  | [] => [x]
  | y :: rest =>
      if (x.1 <=? y.1)%N then x :: sorted else y :: insert_by_index x rest
  end.

Definition sort_by_index {A} (l : list (N * A)) : list (N * A) :=
  foldr insert_by_index [] l.

(** [Object.entries(obj)]: the properties whose key is an array index
    first, by ascending index, then the others in the order they were
    created. *)
Definition Object_entries {A} (props : list (string * A)) : list (string * A) :=
  (sort_by_index
     (omap (fun entry : string * A =>
              match array_index entry.1 with
              | Some n => Some (n, entry)
              | None => None
              end) props)).*2
  ++ filter (fun entry : string * A => array_index entry.1 = None) props.

(** The [td] texts of a [tr] of the preview table:
    [Object.entries(row).map(([key, value]) => <td>{String(value)}</td>)]. *)
Definition cells (r : row) : list string :=
  map (fun entry : string * scalar => print entry.2) (Object_entries r).

(** The [tr] elements of the preview table, each the list of its [td]
    texts; no table when [preview.length > 0] is false. *)
Definition previewRows (s : App) : list (list string) :=
  if 0 <? length (preview s) then map cells (preview s) else [].

(** What rendering a part of the tree comes to: React stops at an
    exception; a part guarded by a falsy condition is absent. *)
Inductive rendering (A : Type) : Type :=
  | Throws
  | Absent
  | Rendered (x : A).
Arguments Throws {A}.
Arguments Absent {A}.
Arguments Rendered {A} x.

(** What React accepts as a child: strings and numbers are text,
    booleans, [null] and [undefined] render nothing, an array renders its
    items; a plain object is refused with an exception. *)
Fixpoint renderable (v : value) : bool :=
  match v with
  | VObj _ => false
  | VArr items => forallb renderable items
  | _ => true
  end.

(** [<li key={entry.variant}>{entry.variant} ({entry.cases})</li>]: the two
    values interpolated; [None] when rendering it throws: [entry] is
    [null], off which no property can be read, or one of the two values is
    not a valid child. *)
Definition li (entry : value) : option (value * value) :=
  match entry with
  | VUndefined | VNull => None
  | VObj props =>
      if renderable (prop "variant" props) && renderable (prop "cases" props)
      then Some (prop "variant" props, prop "cases" props)
      else None
  | _ => Some (VUndefined, VUndefined)
  end.

(** [xs.slice(0, n)] *)
Definition slice0 {A} (n : nat) (xs : list A) : list A := take n xs.

(** The "Statistiques" card of a result object:
    [{'statistics' in result && ... {result.statistics.cases} ...
      {result.statistics.activities} ...
      {Math.round(result.statistics.duration_seconds.mean)}}]:
    the two values interpolated and the argument of [Math.round].  Reading
    a property off [null] or [undefined] throws, and so does [Math.round]
    on an argument that cannot be converted to a primitive. *)
Definition statisticsCard (props : list (string * value))
  : rendering (value * value * value) :=
  if bool_decide ("statistics" ∈ props.*1) then
    match prop "statistics" props with
    | VObj st =>
        let mean :=
          match prop "duration_seconds" st with
          | VUndefined | VNull => None
          | VObj ds => Some (prop "mean" ds)
          | _ => Some VUndefined
          end in
        match mean with
        | Some m =>
            if renderable (prop "cases" st) && renderable (prop "activities" st)
               && bool_decide (is_Some (ToString m))
            then Rendered (prop "cases" st, prop "activities" st, m)
            else Throws
        | None => Throws
        end
    | _ => Throws
    end
  else Absent.

(** The items of the "Top variants" card of a result object:
    [{'variants' in result && ...
       result.variants.slice(0, 5).map((entry) => <li>...</li>)}];
    [slice] followed by [map] exists on arrays only. *)
Definition topVariants (props : list (string * value))
  : rendering (list (value * value)) :=
  if bool_decide ("variants" ∈ props.*1) then
    match prop "variants" props with
    | VArr entries =>
        match mapM li (slice0 5 entries) with
        | Some items => Rendered items
        | None => Throws
        end
    | _ => Throws
    end
  else Absent.

(** A card that is absent leaves no trace in the section. *)
Definition shown {A} (r : rendering A) : option A :=
  match r with
  | Rendered x => Some x
  | _ => None
  end.

Definition throws {A} (r : rendering A) : bool :=
  match r with
  | Throws => true
  | _ => false
  end.

(** The "Résultats" section: [{result && (<section> ... </section>)}] with
    its two cards.  [in] throws on a primitive; an array has neither
    property. *)
Definition resultsSection (res : value)
  : rendering (option (value * value * value) * option (list (value * value))) :=
  if truthy res then
    match res with
    | VObj props =>
        if throws (statisticsCard props) || throws (topVariants props) then Throws
        else Rendered (shown (statisticsCard props), shown (topVariants props))
    | VArr _ => Rendered (None, None)
    | _ => Throws
    end
  else Absent.

(** * The back end, from the specification *)

Module Backend.

(** Modelled from the spec: the Dataset of section 3, whose declaration is
    not in the sources: an identifier, the column names, the table of rows
    and the capped preview kept with it. *)
Record Dataset : Type := {
  dataset_id : string;
  ds_columns : list string;
  ds_rows : list row;
  ds_preview : list row;
}.

(** Modelled from the spec: the Dataset Store of section 4.1, which is not
    in the sources: the datasets held, by identifier, and how many
    identifiers were issued. *)
Record Store : Type := {
  issued : nat;
  held : gmap string Dataset;
}.

Definition empty : Store := {| issued := 0; held := ∅ |}.

(** Modelled from the spec: the cap of the preview, "the first 20 rows". *)
Definition preview_cap : nat := 20.

(** Modelled from the spec: [get] of section 4.1, a pure lookup;
    [None] is [NotFound]. *)
Definition get (id : string) (st : Store) : option Dataset := held st !! id.

Inductive UploadError : Type := InvalidFile | EmptyFile.

Section Service.

(** The table-parsing service, an external collaborator: the columns
    and rows of a file, [None] when it cannot be parsed. *)
Variable parse_table : File -> option (list string * list row).

(** The identifier given to the [n]-th dataset stored. *)
Variable fresh_id : nat -> string.

(** Modelled from the spec: [put] of section 4.1, which is not in the
    sources: assigns a fresh identifier and stores the table verbatim
    plus a capped preview (the first 20 rows). *)
Definition put (table : list string * list row) (st : Store) : string * Store :=
  let id := fresh_id (issued st) in
  let ds := {| dataset_id := id;
               ds_columns := table.1;
               ds_rows := table.2;
               ds_preview := take preview_cap table.2 |} in
  (id, {| issued := S (issued st); held := <[id := ds]> (held st) |}).

(** Modelled from the spec: [Upload] of section 6, which is not in the
    sources: [InvalidFile] if the source cannot be parsed into a table,
    [EmptyFile] if it has zero columns, else the identifier [put]
    assigned, the columns and the stored preview. *)
Definition Upload (f : File) (st : Store) : (UploadError + data.t) * Store :=
  match parse_table f with
  | None => (inl InvalidFile, st)
  | Some table =>
      match table.1 with
      | [] => (inl EmptyFile, st)
      | _ :: _ =>
          let '(id, st1) := put table st in
          (inr {| data.file_id := id;
                  data.columns := table.1;
                  data.preview := take preview_cap table.2 |}, st1)
      end
  end.

(** *** The front end served by this back end *)

(** The events of the whole system: those of the page, except that the
    body of a successful upload is the one [Upload] answers for the file
    that was posted; [Lost] is an upload that was stored but whose reply
    did not arrive. *)
Inductive sys_event : Type :=
  | Page (e : event)
  | Served
  | Lost (message : string).

Definition sys_step (e : sys_event) (sc : Store * config) : option (Store * config) :=
  let '(st, c) := sc in
  match e with
  | Page (UploadSettled (Succeeded _)) => None
  | Page e => c1 ← step e c; Some (st, c1)
  | Served =>
      match pending c with
      | Some (PostUpload f) =>
          match Upload f st with
          | (inr d, st1) => c1 ← step (UploadSettled (Succeeded d)) c; Some (st1, c1)
          | (inl _, _) => None
          end
      | _ => None
      end
  | Lost message =>
      match pending c with
      | Some (PostUpload f) =>
          match Upload f st with
          | (inr _, st1) => c1 ← step (UploadSettled (Rejected message)) c; Some (st1, c1)
          | (inl _, _) => None
          end
      | _ => None
      end
  end.

Fixpoint sys_run (tr : list sys_event) (sc : Store * config) : option (Store * config) :=
  match tr with
  | [] => Some sc
  | e :: rest =>
      match sys_step e sc with
      | Some sc1 => sys_run rest sc1
      | None => None
      end
  end.

Definition sys_reachable (tr : list sys_event) (sc : Store * config) : Prop :=
  sys_run tr (empty, start) = Some sc.

End Service.

(** Modelled from the spec: the overall status of section 4.4, step 4. *)
Inductive Status : Type := ok | partial | failed.

(** Modelled from the spec: the three names of the Analysis Registry of
    section 4.3. *)
Definition known_names : list string := ["discovery"; "statistics"; "variants"].

Section Orchestrator.

(** The Schema Mapper and the analysis algorithms are collaborators of
    the orchestrator: the event log type, the payloads and the
    functions are left open. *)
Variables (EventLog MappingError Payload : Type).
Variable validate_and_map : Dataset -> Mapping -> MappingError + EventLog.
Variable malformed : string -> bool.

(** Modelled from the spec: what one analysis comes to (section 3,
    Analysis Result): a success payload or a failure descriptor. *)
Inductive Outcome : Type :=
  | Success (payload : Payload)
  | Failure (descriptor : string).

(** The three analysis functions; [Failure] is an execution failure,
    as the orchestrator catches it. *)
Variables discovery statistics variants : EventLog -> Outcome.

(** Modelled from the spec: the Analysis Registry of section 4.3, a
    fixed mapping from analysis name to analysis function. *)
Definition registry (name : string) : option (EventLog -> Outcome) :=
  if String.eqb name "discovery" then Some discovery
  else if String.eqb name "statistics" then Some statistics
  else if String.eqb name "variants" then Some variants
  else None.

(** Modelled from the spec: the Analysis Request of section 3. *)
Record Request : Type := {
  req_dataset_id : string;
  req_mapping : Mapping;
  req_analyses : list string;
}.

Inductive RequestError : Type :=
  | EmptyAnalyses
  | UnknownAnalysis (name : string)
  | MalformedId
  | NotFound
  | Mapping_error (e : MappingError).

(** Modelled from the spec: the response of section 4.4: the results by
    analysis name in the order requested, the overall status, and the
    request-level failure when there is one. *)
Record Response : Type := {
  status : Status;
  results : list (string * Outcome);
  failure : option RequestError;
}.

Definition succeeded (o : Outcome) : bool :=
  match o with Success _ => true | Failure _ => false end.

(** Modelled from the spec: step 3 of section 4.4: each requested
    analysis, in the order requested, is looked up and invoked on the
    event log; a failure is recorded and the remaining analyses still
    run.  A name the registry does not know (excluded at the boundary)
    is recorded as a failure. *)
Definition invoke (log : EventLog) (name : string) : Outcome :=
  match registry name with
  | Some analysis => analysis log
  | None => Failure "unknown analysis"
  end.

Definition run_all (log : EventLog) (names : list string) : list (string * Outcome) :=
  map (fun name => (name, invoke log name)) names.

(** Modelled from the spec: step 4 of section 4.4: [ok] if all
    succeeded, [partial] if some succeeded, [failed] if none did. *)
Definition overall (rs : list (string * Outcome)) : Status :=
  if forallb (fun r => succeeded r.2) rs then
    match rs with [] => failed | _ :: _ => ok end
  else if existsb (fun r => succeeded r.2) rs then partial
  else failed.

(** Modelled from the spec: [run] of section 4.4, which is not in the
    sources: resolve the dataset, validate the mapping, run the
    requested analyses in isolation, assemble the response. *)
Definition run (st : Store) (req : Request) : Response :=
  match get (req_dataset_id req) st with
  | None => {| status := failed; results := []; failure := Some NotFound |}
  | Some ds =>
      match validate_and_map ds (req_mapping req) with
      | inl e => {| status := failed; results := []; failure := Some (Mapping_error e) |}
      | inr log =>
          let rs := run_all log (req_analyses req) in
          {| status := overall rs; results := rs; failure := None |}
      end
  end.

(** Modelled from the spec: [Analyze] of section 6, which is not in the
    sources: the request is rejected at the boundary, before the dataset
    is resolved, if [analyses] is empty or names an unknown analysis or
    if the dataset id is malformed. *)
Definition Analyze (st : Store) (req : Request) : RequestError + Response :=
  match req_analyses req with
  | [] => inl EmptyAnalyses
  | _ :: _ =>
      match filter (fun name => name ∉ known_names) (req_analyses req) with
      | name :: _ => inl (UnknownAnalysis name)
      | [] =>
          if malformed (req_dataset_id req) then inl MalformedId
          else inr (run st req)
      end
  end.

(** The result recorded for a name: the first entry under it. *)
Definition result_for (name : string) (resp : Response) : option Outcome :=
  (list_find (fun r => r.1 = name) (results resp)) ≫= fun ir => Some ir.2.2.

End Orchestrator.

Arguments Success {Payload} payload.
Arguments Failure {Payload} descriptor.
Arguments succeeded {Payload} o.
Arguments registry {EventLog Payload} discovery statistics variants name.
Arguments invoke {EventLog Payload} discovery statistics variants log name.
Arguments run_all {EventLog Payload} discovery statistics variants log names.
Arguments overall {Payload} rs.
Arguments status {MappingError Payload} r.
Arguments results {MappingError Payload} r.
Arguments failure {MappingError Payload} r.
Arguments result_for {MappingError Payload} name resp.
Arguments run {EventLog MappingError Payload} validate_and_map
  discovery statistics variants st req.
Arguments Analyze {EventLog MappingError Payload} validate_and_map malformed
  discovery statistics variants st req.

End Backend.

(** * Statements *)

(** ** Statements about the page *)

(** The request the analyse button would send is well formed: a dataset
    id, the three required fields of the mapping and one analysis at
    least. *)
Definition well_formed (s : App) : Prop :=
  fileId s ≠ "" ∧
  case_id (mapping s) ≠ "" ∧
  activity (mapping s) ≠ "" ∧
  timestamp (mapping s) ≠ "" ∧
  analyses s ≠ [].

(** While a request is awaited, the page shows the state its handler set
    before the [await]. *)
Definition awaiting (c : config) : Prop :=
  is_Some (pending c) →
  loading (app c) = true ∧ result (app c) = VNull ∧ error (app c) = "".

(** The two ways an analysis ends. *)
Definition stored (r : reply value) (s : App) : Prop :=
  ∃ body, r = Succeeded body ∧ result s = body ∧ error s = "".

Definition refused (s : App) : Prop :=
  result s = VNull ∧ error s ≠ "" ∧
  ∃ m, error s = "Analyse impossible: " +:+ m.

(** Every field of the mapping that is set names a column of the dataset
    the page holds the id of: the one the latest successful upload
    returned. *)
Definition names_columns_of_dataset (tr : list event) (s : App) : Prop :=
  ∀ k, get (mapping s) k ≠ "" →
    ∃ d, last (uploads tr) = Some d ∧
         fileId s = data.file_id d ∧
         get (mapping s) k ∈ data.columns d.

(** What holds of the mapping along every run, with [h] the bodies of the
    successful uploads so far. *)
Definition mapping_inv (h : list data.t) (c : config) : Prop :=
  let s := app c in
  (∀ k, get (mapping s) k ≠ "" →
        ∃ d, d ∈ h ∧ get (mapping s) k ∈ data.columns d) ∧
  match last h with
  | Some d => fileId s = data.file_id d ∧ columns s = data.columns d
  | None => fileId s = "" ∧ columns s = []
  end ∧
  (length h ≤ 1 → ∀ k, get (mapping s) k ≠ "" → get (mapping s) k ∈ columns s).

(** No two fields of the mapping hold the same column; [resource] counts
    when it is set. *)
Definition distinct_columns (m : Mapping) : Prop :=
  ∀ k1 k2, k1 ≠ k2 → get m k1 ≠ "" → get m k1 ≠ get m k2.

(** The entry of the [variants] payload for a variant and its number of
    cases. *)
Definition entry_of (item : value * value) : value :=
  VObj [("variant", item.1); ("cases", item.2)].

(** The results section lists the first [n] variants of the response, in
    its order, each with its activity sequence and its number of cases. *)
Definition lists_top (n : nat) (res : value) (items : list (value * value)) : Prop :=
  ∃ statistics, resultsSection res = Rendered (statistics, Some (take n items)).

(** Both values of an item can be rendered. *)
Definition item_renderable (item : value * value) : Prop :=
  renderable item.1 = true ∧ renderable item.2 = true.

(** The number of cases of an item, when it is a safe integer. *)
Definition count (item : value * value) : option Z :=
  match item.2 with
  | VNum (Int n _) => Some n
  | _ => None
  end.

(** Descending number of cases, ties by the order in which the variants
    were first observed, [first_seen] giving that order. *)
Definition ranked (first_seen : value → nat) (a b : value * value) : Prop :=
  match count a, count b with
  | Some m, Some n =>
      (n < m)%Z ∨ (n = m ∧ first_seen a.1 < first_seen b.1)
  | _, _ => False
  end.

(** Descending number of cases. *)
Definition more_cases (a b : value * value) : Prop :=
  match a.2, b.2 with
  | VNum (Int m _), VNum (Int n _) => (n ≤ m)%Z
  | _, _ => False
  end.

(** ** Sample data *)

Definition orders_csv : File := {| file_name := "orders.csv"; file_bytes := "" |}.
Definition tickets_csv : File := {| file_name := "tickets.csv"; file_bytes := "" |}.

Definition orders : data.t := {|
  data.file_id := "f1";
  data.columns := ["case"; "act"; "time"];
  data.preview := [];
|}.

Definition tickets : data.t := {|
  data.file_id := "f2";
  data.columns := ["id"; "step"; "when"];
  data.preview := [];
|}.

(** A first upload, then a second one that replaces the dataset. *)
Definition two_uploads : list event :=
  [ChooseFile (Some orders_csv); Submit; UploadSettled (Succeeded orders);
   ChooseFile (Some tickets_csv); Submit; UploadSettled (Succeeded tickets)].

(** An upload, then the activity select set to the case column. *)
Definition same_column_twice : list event :=
  [ChooseFile (Some orders_csv); Submit; UploadSettled (Succeeded orders);
   Select Kactivity "case"].

(** Six variants, by descending number of cases. *)
Definition six_items : list (value * value) :=
  [(VStr "a,b,c", VNum #9); (VStr "a,c,b", VNum #7); (VStr "a,b", VNum #4);
   (VStr "a,c", VNum #3); (VStr "a", VNum #2); (VStr "b", VNum #1)].

Definition six_variants : value :=
  VObj [("variants", VArr (map entry_of six_items))].

(** ** Sample data for the back end *)

(** A table of 25 rows of three columns, the last two named by numbers. *)
Definition long_table : list string * list row :=
  (["case"; "10"; "9"],
   replicate 25 [("case", SStr "c1"); ("10", SNum (Real "12.5")); ("9", SNull)]).

(** A log and three analyses, of which [statistics] fails. *)
Definition sample_store : Backend.Store :=
  {| Backend.issued := 1;
     Backend.held := {[ "ds0" := {| Backend.dataset_id := "ds0";
                                    Backend.ds_columns := ["case"; "act"; "time"];
                                    Backend.ds_rows := [];
                                    Backend.ds_preview := [] |} ]} |}.

Definition sample_request : Backend.Request :=
  {| Backend.req_dataset_id := "ds0";
     Backend.req_mapping := {| case_id := "case"; activity := "act";
                               timestamp := "time"; resource := "" |};
     Backend.req_analyses := ["discovery"; "statistics"; "variants"] |}.

Definition sample_analysis (name : string) (log : list row) : Backend.Outcome nat :=
  if String.eqb name "statistics" then Backend.Failure "no case"
  else Backend.Success (length log).

(** ** Sample runs *)

(** The state a trace leads to, from the initial one. *)
Definition after (tr : list event) : config := default start (run tr start).

(** A click on a check box, twice. *)
Definition two_clicks : list event := [Toggle "variants"; Toggle "variants"].

(** An upload, then a click on the analyse button. *)
Definition upload_then_analyze : list event :=
  [ChooseFile (Some orders_csv); Submit; UploadSettled (Succeeded orders); Analyze].

(** A file chosen, nothing uploaded yet. *)
Definition chosen : App := setFile (Some orders_csv) init.

(** A back end whose parser reads [long_table] from every file, and the
    page after one upload served by it. *)
Definition sample_parse (f : File) : option (list string * list row) := Some long_table.
Definition sample_id (n : nat) : string := "ds" +:+ pretty n.

Definition served_once : list Backend.sys_event :=
  [Backend.Page (ChooseFile (Some orders_csv)); Backend.Page Submit; Backend.Served].

Definition sys_after (tr : list Backend.sys_event) : Backend.Store * config :=
  default (Backend.empty, start)
          (Backend.sys_run sample_parse sample_id tr (Backend.empty, start)).

Definition sample_validate (ds : Backend.Dataset) (m : Mapping) : string + list row :=
  inr (Backend.ds_rows ds).

(** ** The error box *)

(** [ErrorBox({ message })]: [if (!message) return null], else the
    paragraph with the message. *)
Definition ErrorBox (message : string) : option string :=
  if truthy (VStr message) then Some message else None.

(** A request to [/analyze] as the page may send it. *)
Definition sendable (id : string) (m : Mapping) (names : list string) : Prop :=
  id ≠ "" ∧ case_id m ≠ "" ∧ activity m ≠ "" ∧ timestamp m ≠ "" ∧
  names ≠ [] ∧ NoDup names ∧
  ∀ name, name ∈ names → name ∈ ["discovery"; "statistics"; "variants"].

(** [loading] is set exactly while a request is awaited. *)
Definition busy (c : config) : Prop :=
  loading (app c) = true ↔ is_Some (pending c).

(** A result is only kept while no error is. *)
Definition result_without_error (c : config) : Prop :=
  result (app c) ≠ VNull → error (app c) = "".

(** The messages the page can show. *)
Definition known_error (msg : string) : Prop :=
  msg = "" ∨
  (∃ m, msg = "Upload impossible: " +:+ m) ∨
  (∃ m, msg = "Analyse impossible: " +:+ m).

(** The names selected are distinct registry names. *)
Definition analyses_ok (c : config) : Prop :=
  NoDup (analyses (app c)) ∧
  ∀ name, name ∈ analyses (app c) →
          name ∈ ["discovery"; "statistics"; "variants"].

(** The request for an analysis that is awaited was sendable when it was
    sent, for the dataset the page still holds. *)
Definition sent_ok (c : config) : Prop :=
  ∀ id m names, pending c = Some (PostAnalyze id m names) →
                id = fileId (app c) ∧ sendable id m names.

(** The dataset on the page is the one of the latest successful upload,
    [h] being the bodies of the successful uploads so far; before the first
    one the page holds no dataset and the mapping is empty. *)
Definition page_data (h : list data.t) (c : config) : Prop :=
  match last h with
  | Some d =>
      fileId (app c) = data.file_id d ∧
      columns (app c) = data.columns d ∧
      preview (app c) = data.preview d
  | None =>
      fileId (app c) = "" ∧ columns (app c) = [] ∧ preview (app c) = [] ∧
      mapping (app c) = mapping init
  end.

(** ** More sample runs *)

(** A file chosen and the upload started. *)
Definition upload_begun : list event :=
  [ChooseFile (Some orders_csv); Submit].

(** An upload that fails on the network. *)
Definition upload_failed : list event :=
  upload_begun ++ [UploadSettled (Rejected "Failed to fetch")].

(** An upload that succeeds. *)
Definition upload_done : list event :=
  upload_begun ++ [UploadSettled (Succeeded orders)].

(** A file chosen and a box unchecked, nothing uploaded. *)
Definition no_upload_yet : list event :=
  [ChooseFile (Some orders_csv); Toggle "variants"].

(** A response whose statistics failed, with its variants. *)
Definition statistics_failed : list (string * value) :=
  [("statistics", VObj [("error", VStr "no case")]);
   ("variants", VArr (map entry_of six_items))].

(** The body of a refusal with a [detail]. *)
Definition refusal : list (string * value) := [("detail", VStr "Fichier vide")].

(** The order in which the sample variants were first observed. *)
Definition sample_first_seen (variant : value) : nat :=
  match variant with
  | VStr s => String.length s
  | _ => 0
  end.

(** The body of a refusal whose [detail] is a list of two objects. *)
Definition two_objects : list (list (string * value)) :=
  [[("loc", VStr "body")]; [("msg", VStr "field required")]].
(** * Properties *)


(** ** Basic facts *)

Lemma truthy_VStr (s : string) : truthy (VStr s) = true ↔ s ≠ "".
Proof.
  simpl. rewrite negb_true_iff. apply String.eqb_neq.
Qed.

Lemma truthy_canAnalyze (s : App) : truthy (canAnalyze s) = true ↔ well_formed s.
Proof.
  unfold canAnalyze, well_formed, js_and.
  destruct (decide (fileId s = "")) as [E1|N1].
  { rewrite E1. simpl. split; [done | tauto]. }
  rewrite (proj2 (truthy_VStr _) N1).
  destruct (decide (case_id (mapping s) = "")) as [E2|N2].
  { rewrite E2. simpl. split; [done | tauto]. }
  rewrite (proj2 (truthy_VStr _) N2).
  destruct (decide (activity (mapping s) = "")) as [E3|N3].
  { rewrite E3. simpl. split; [done | tauto]. }
  rewrite (proj2 (truthy_VStr _) N3).
  destruct (decide (timestamp (mapping s) = "")) as [E4|N4].
  { rewrite E4. simpl. split; [done | tauto]. }
  rewrite (proj2 (truthy_VStr _) N4).
  destruct (analyses s) as [|a l]; simpl.
  - split; [done | tauto].
  - split; [intros _; by repeat split | done].
Qed.

(** C1: for every state of the page, [canAnalyze] is true (and the analyse
    button can be pressed, when nothing is loading) if and only if a
    dataset id is present, [case_id], [activity] and [timestamp] are
    non-empty strings and the list of analyses is not empty. *)
Theorem canAnalyze_iff_well_formed (s : App) :
  (canAnalyze s = VBool true ↔ well_formed s) ∧
  (truthy (canAnalyze s) = true ↔ well_formed s) ∧
  (analyze_disabled s = false ↔ well_formed s ∧ loading s = false).
Proof.
  pose proof (truthy_canAnalyze s) as Ht.
  split; [|split]; [|exact Ht|].
  - split.
    + intros E. apply Ht. by rewrite E.
    + intros W. apply Ht in W. revert W.
      unfold canAnalyze, js_and.
      repeat match goal with
             | |- context [truthy (VStr ?x)] => destruct (truthy (VStr x)) eqn:?
             end; simpl in *; congruence.
  - unfold analyze_disabled. rewrite orb_false_iff, negb_false_iff.
    by rewrite Ht.
Qed.

(** ** Uploads *)

Lemma autofill_field (prev : string) (cols : list string) (i : nat) :
  str_of (js_or (js_or (VStr prev) (index cols i)) (VStr "")) =
  if decide (prev = "") then default "" (cols !! i) else prev.
Proof.
  unfold js_or, index. destruct (decide (prev = "")) as [->|N].
  - simpl. destruct (cols !! i) as [c|]; simpl; [|done].
    destruct (String.eqb_spec c ""); simpl; congruence.
  - apply truthy_VStr in N. rewrite N. cbv iota. by rewrite N.
Qed.

Lemma autofill_resource (prev : string) :
  str_of (js_or (VStr prev) (VStr "")) = prev.
Proof.
  unfold js_or. simpl. destruct (String.eqb_spec prev ""); simpl; congruence.
Qed.

(** [onUpload] with a file chosen runs both halves of the handler. *)
Lemma onUpload_with_file (r : reply data.t) (s : App) :
  is_Some (file s) →
  onUpload r s =
  onUpload_settle r (setLoading true (setResult VNull (setError "" s))).
Proof.
  intros [f Hf]. unfold onUpload, onUpload_begin. by rewrite Hf.
Qed.

(** C8: after a successful upload, a required field of the mapping that was
    empty is filled from the returned columns by position ([case_id] from
    the first, [activity] from the second, [timestamp] from the third), with
    the empty string when there is no such column; a field that was not
    empty is kept, and [resource] is never filled. *)
Theorem upload_autofills_by_position (d : data.t) (s : App) :
  is_Some (file s) →
  let before := mapping s in
  let after := mapping (onUpload (Succeeded d) s) in
  case_id after =
    (if decide (case_id before = "") then default "" (data.columns d !! 0)
     else case_id before) ∧
  activity after =
    (if decide (activity before = "") then default "" (data.columns d !! 1)
     else activity before) ∧
  timestamp after =
    (if decide (timestamp before = "") then default "" (data.columns d !! 2)
     else timestamp before) ∧
  resource after = resource before.
Proof.
  intros Hf. rewrite onUpload_with_file by done. simpl.
  rewrite !autofill_field, autofill_resource. done.
Qed.

(** C9: when the upload request fails (a rejected [fetch] or a response
    that is not ok), [fileId], [columns], [preview] and [mapping] keep their
    values, and so do the other hooks, except that [result] is [null] and
    [error] is the message prefixed with ['Upload impossible: ']. *)
Theorem failed_upload_keeps_dataset (r : reply data.t) (m : string) (s : App) :
  is_Some (file s) →
  thrown r = Some m →
  let s' := onUpload r s in
  fileId s' = fileId s ∧ columns s' = columns s ∧
  preview s' = preview s ∧ mapping s' = mapping s ∧
  file s' = file s ∧ analyses s' = analyses s ∧
  result s' = VNull ∧
  error s' = "Upload impossible: " +:+ m ∧
  loading s' = false.
Proof.
  intros Hf Hm. rewrite onUpload_with_file by done.
  destruct r as [msg|text parsed|body]; simpl in Hm; [| |done];
    injection Hm as <-; by repeat split.
Qed.

(** ** Traces *)

Lemma uploads_cons (e : event) (tr : list event) :
  uploads (e :: tr) = uploads [e] ++ uploads tr.
Proof.
  destruct e as [| | | |[| |]| |]; reflexivity.
Qed.

(** A property of the state and of the uploads so far that every step
    keeps holds along every run. *)
Lemma run_invariant (P : list data.t → config → Prop) :
  (∀ h e c c', P h c → step e c = Some c' → P (h ++ uploads [e]) c') →
  ∀ tr h c c', P h c → run tr c = Some c' → P (h ++ uploads tr) c'.
Proof.
  intros Hstep tr. induction tr as [|e tr IH]; intros h c c' HP Hrun.
  - simpl in *. injection Hrun as <-. by rewrite app_nil_r.
  - simpl in Hrun. destruct (step e c) as [c1|] eqn:He; [|done].
    rewrite uploads_cons, app_assoc. eapply IH; [|done]. eauto.
Qed.

Lemma reachable_invariant (P : config → Prop) :
  P start →
  (∀ e c c', P c → step e c = Some c' → P c') →
  ∀ tr c, reachable tr c → P c.
Proof.
  intros H0 Hstep tr c Hr.
  apply (run_invariant (fun _ => P) (fun _ e c c' => Hstep e c c') tr [] start c H0 Hr).
Qed.

(** ** Requests in flight *)


Lemma step_awaiting (e : event) (c c' : config) :
  awaiting c → step e c = Some c' → awaiting c'.
Proof.
  unfold awaiting. intros Hc He. destruct e; simpl in He.
  - injection He as <-. exact Hc.
  - case_bool_decide; [|done]. injection He as <-. exact Hc.
  - case_bool_decide; [|done]. injection He as <-. exact Hc.
  - destruct (upload_disabled (app c)); [done|].
    unfold onUpload_begin in He. destruct (file (app c)).
    + injection He as <-. done.
    + injection He as <-. exact Hc.
  - destruct (pending c) as [[]|]; try done. injection He as <-.
    simpl. by intros [? ?].
  - destruct (analyze_disabled (app c)); [done|]. injection He as <-. done.
  - destruct (pending c) as [[]|]; try done. injection He as <-.
    simpl. by intros [? ?].
Qed.

Lemma reachable_awaiting (tr : list event) (c : config) :
  reachable tr c → awaiting c.
Proof.
  apply (reachable_invariant awaiting).
  - by intros [? ?].
  - apply step_awaiting.
Qed.


Lemma runAnalysis_settle_cases (r : reply value) (s : App) :
  result s = VNull → error s = "" →
  let s' := runAnalysis_settle r s in
  loading s' = false ∧
  (stored r s' ∧ ¬ refused s' ∨ refused s' ∧ ¬ stored r s').
Proof.
  intros Hres Herr. split; [done|].
  destruct r as [msg|text parsed|body].
  - right. split.
    + repeat split; [done|done|by eexists].
    + by intros (? & ? & _).
  - right. split.
    + repeat split; [done|done|by eexists].
    + by intros (? & ? & _).
  - left. split.
    + exists body. by repeat split.
    + intros (_ & Hne & _). by apply Hne.
Qed.

(** C10: when a [runAnalysis] invocation settles, in whatever state the
    page was when it was started and whatever happened on the page
    meanwhile, [loading] is false and exactly one of two states holds:
    [result] is the parsed body of the response and [error] is empty, or
    [result] is [null] and [error] is a non-empty message that starts with
    ['Analyse impossible:']. *)
Theorem analysis_settles_in_one_of_two_states
    (tr : list event) (c c' : config) (r : reply value) :
  reachable tr c →
  step (AnalysisSettled r) c = Some c' →
  loading (app c') = false ∧
  (stored r (app c') ∧ ¬ refused (app c') ∨
   refused (app c') ∧ ¬ stored r (app c')) ∧
  (∀ s, let s' := runAnalysis r s in
        loading s' = false ∧
        (stored r s' ∧ ¬ refused s' ∨ refused s' ∧ ¬ stored r s')).
Proof.
  intros Hr Hs. apply reachable_awaiting in Hr.
  simpl in Hs. destruct (pending c) as [[]|] eqn:Hp; try done.
  injection Hs as <-. simpl.
  destruct Hr as (_ & Hres & Herr); [by rewrite Hp|].
  pose proof (runAnalysis_settle_cases r (app c) Hres Herr) as [Hl Hc].
  split; [done|]. split; [exact Hc|].
  intros s. apply runAnalysis_settle_cases; done.
Qed.

(** ** The analyses selected *)

Lemma onCheck_distinct (name : string) (current : list string) :
  NoDup current →
  NoDup (onCheck name (negb (includes name current)) current).
Proof.
  intros Hnd. unfold onCheck, includes. case_bool_decide as Hin; simpl.
  - by apply NoDup_filter.
  - apply NoDup_app. split; [done|]. split; [|apply NoDup_singleton].
    intros x Hx ->%list_elem_of_singleton. done.
Qed.

Lemma onCheck_known (name : string) (checked : bool) (current known : list string) :
  name ∈ known → current ⊆ known → onCheck name checked current ⊆ known.
Proof.
  intros Hn Hsub x. unfold onCheck. destruct checked.
  - rewrite elem_of_app, list_elem_of_singleton. intros [?| ->]; auto.
  - rewrite list_elem_of_filter. intros [_ ?]. auto.
Qed.

(** C4: in every state the page can reach, in particular after any
    sequence of clicks on the analysis check boxes, the names in [analyses]
    are pairwise distinct and each is one of discovery, statistics and
    variants. *)
Theorem analyses_distinct_and_known (tr : list event) (c : config) :
  reachable tr c →
  NoDup (analyses (app c)) ∧
  ∀ name, name ∈ analyses (app c) →
          name ∈ ["discovery"; "statistics"; "variants"].
Proof.
  revert tr c.
  apply (reachable_invariant
           (fun c => NoDup (analyses (app c)) ∧
                     ∀ name, name ∈ analyses (app c) →
                             name ∈ ["discovery"; "statistics"; "variants"])).
  - split; [|done]. simpl. compute_done.
  - intros e c c' [Hnd Hsub] He. destruct e; simpl in He.
    + by injection He as <-.
    + case_bool_decide; [|done]. by injection He as <-.
    + case_bool_decide as Hn; [|done]. injection He as <-. simpl.
      split; [by apply onCheck_distinct | by apply onCheck_known].
    + destruct (upload_disabled (app c)); [done|].
      unfold onUpload_begin in He.
      destruct (file (app c)); by injection He as <-.
    + destruct (pending c) as [[]|]; try done. injection He as <-.
      by destruct r.
    + destruct (analyze_disabled (app c)); [done|]. by injection He as <-.
    + destruct (pending c) as [[]|]; try done. injection He as <-.
      by destruct r.
Qed.

(** ** The mapping and the columns *)

Lemma get_set (k k' : key) (v : string) (m : Mapping) :
  get (set k v m) k' = if decide (k = k') then v else get m k'.
Proof. by destruct k, k'. Qed.

(** A field of the mapping after an upload is the one from before, or, if
    that was empty, a column of the dataset uploaded (or still empty). *)
Lemma get_autofill (d : data.t) (m : Mapping) (k : key) :
  get (autofill d m) k ≠ "" →
  get m k ≠ "" ∧ get (autofill d m) k = get m k ∨
  get m k = "" ∧ get (autofill d m) k ∈ data.columns d.
Proof.
  assert (∀ prev i,
    (if decide (prev = "") then default "" (data.columns d !! i) else prev) ≠ "" →
    prev ≠ "" ∧ (if decide (prev = "") then default "" (data.columns d !! i) else prev) = prev ∨
    prev = "" ∧ (if decide (prev = "") then default "" (data.columns d !! i) else prev) ∈ data.columns d)
    as Hfield.
  { intros prev i. destruct (decide (prev = "")) as [->|N]; [|by left].
    destruct (data.columns d !! i) as [col|] eqn:Hi; simpl; [|done].
    intros _. right. split; [done|]. by eapply list_elem_of_lookup_2. }
  destruct k; simpl; rewrite ?autofill_field, ?autofill_resource; auto.
Qed.

Lemma last_elem_of {A} (l : list A) (x : A) : last l = Some x → x ∈ l.
Proof.
  intros H. apply last_Some in H as [l' ->]. set_solver.
Qed.

Lemma step_mapping_inv (h : list data.t) (e : event) (c c' : config) :
  mapping_inv h c → step e c = Some c' → mapping_inv (h ++ uploads [e]) c'.
Proof.
  intros (Hsome & Hlast & Hone) He.
  assert (∀ s', mapping s' = mapping (app c) → fileId s' = fileId (app c) →
                columns s' = columns (app c) →
                mapping_inv (h ++ []) {| app := s'; pending := pending c' |})
    as Hsame.
  { intros s' Em Ef Ec. rewrite app_nil_r. unfold mapping_inv. simpl.
    rewrite Em, Ef, Ec. done. }
  destruct e; simpl in He.
  - injection He as <-. by apply Hsame.
  - case_bool_decide as Hv; [|done]. injection He as <-.
    destruct Hv as [Hcols Hv]. rewrite app_nil_r.
    unfold mapping_inv. simpl.
    split; [|split; [done|]].
    + intros k'. rewrite get_set. case_decide; [|by apply Hsome].
      intros Hne. apply elem_of_cons in Hv as [?|Hv]; [done|].
      destruct (last h) as [d|] eqn:Hl.
      * destruct Hlast as [_ Ec]. exists d. split; [by apply last_elem_of|].
        by rewrite <- Ec.
      * by destruct Hlast as [_ ?].
    + intros Hlen k'. rewrite get_set. case_decide; [|by apply Hone].
      intros Hne. by apply elem_of_cons in Hv as [?|Hv].
  - case_bool_decide; [|done]. injection He as <-. by apply Hsame.
  - destruct (upload_disabled (app c)); [done|].
    unfold onUpload_begin in He. destruct (file (app c)).
    + injection He as <-. by apply Hsame.
    + injection He as <-. destruct c. by apply Hsame.
  - destruct (pending c) as [[]|]; try done. injection He as <-.
    destruct r as [msg|text parsed|d]; [by apply Hsame..|].
    unfold mapping_inv. simpl. rewrite last_snoc.
    split; [|split; [done|]].
    + intros k Hne. apply get_autofill in Hne as [[Hne ->]|[_ Hin]].
      * destruct (Hsome k Hne) as (d' & ? & ?). exists d'. set_solver.
      * exists d. set_solver.
    + rewrite length_app. simpl. intros Hlen k Hne.
      apply get_autofill in Hne as [[Hne _]|[_ Hin]]; [|done].
      destruct (Hsome k Hne) as (d' & Hd' & _).
      destruct h; [by apply elem_of_nil in Hd' | simpl in Hlen; lia].
  - destruct (analyze_disabled (app c)); [done|]. injection He as <-.
    by apply Hsame.
  - destruct (pending c) as [[]|]; try done. injection He as <-.
    destruct r; by apply Hsame.
Qed.

Lemma reachable_mapping_inv (tr : list event) (c : config) :
  reachable tr c → mapping_inv (uploads tr) c.
Proof.
  intros Hr.
  apply (run_invariant mapping_inv step_mapping_inv tr [] start c); [|done].
  unfold mapping_inv. simpl. split; [|split; [done|]].
  - intros k Hk. by destruct k.
  - intros _ k Hk. by destruct k.
Qed.

(** C2, as it holds: whenever an analysis can be requested (and in every
    other state the page can reach), every field of the mapping that is set
    names a column returned by one of the successful uploads so far, and
    [fileId] and [columns] are those of the latest one; while at most one
    upload has succeeded, the field names a column of the dataset [fileId]
    identifies. *)
Theorem mapping_names_uploaded_columns (tr : list event) (c : config) :
  reachable tr c →
  let s := app c in
  (∀ k, get (mapping s) k ≠ "" →
        ∃ d, d ∈ uploads tr ∧ get (mapping s) k ∈ data.columns d) ∧
  (∀ d, last (uploads tr) = Some d →
        fileId s = data.file_id d ∧ columns s = data.columns d) ∧
  (length (uploads tr) ≤ 1 → names_columns_of_dataset tr s).
Proof.
  intros Hr. apply reachable_mapping_inv in Hr as (Hsome & Hlast & Hone).
  split; [done|]. split.
  - intros d Hd. by rewrite Hd in Hlast.
  - intros Hlen k Hk. destruct (last (uploads tr)) as [d|] eqn:Hl.
    + destruct Hlast as [Ef Ec]. exists d. repeat split; [done|].
      rewrite <- Ec. by apply Hone.
    + destruct (Hsome k Hk) as (d & Hd & _).
      apply last_None in Hl. rewrite Hl in Hd. by apply elem_of_nil in Hd.
Qed.

(** C2 fails after a second upload: the mapping filled for the first
    dataset is kept, the analysis can be requested, and [case_id] names a
    column the dataset of [fileId] does not have. *)
Lemma second_upload_keeps_stale_mapping :
  ∃ c, reachable two_uploads c ∧
       truthy (canAnalyze (app c)) = true ∧
       fileId (app c) = "f2" ∧
       case_id (mapping (app c)) = "case" ∧
       ¬ names_columns_of_dataset two_uploads (app c).
Proof.
  exists (after two_uploads). split; [by vm_compute|]. repeat split.
  intros H. destruct (H Kcase_id) as (d & Hd & _ & Hin); [done|].
  injection Hd as <-. revert Hin. compute_done.
Qed.

(** The page never compares the fields of the mapping with each other. *)
Lemma onSelect_keeps_canAnalyze (k : key) (v : string) (s : App) :
  v ≠ "" →
  truthy (canAnalyze s) = true →
  truthy (canAnalyze (onSelect k v s)) = true.
Proof.
  rewrite !truthy_canAnalyze. unfold well_formed.
  intros Hv (? & ? & ? & ? & ?). by destruct k.
Qed.

Lemma autofill_empty_distinct (d : data.t) :
  NoDup (data.columns d) →
  distinct_columns (autofill d (mapping init)).
Proof.
  intros Hnd k1 k2 Hk Hne Heq.
  assert (∀ i j, i ≠ j → default "" (data.columns d !! i) ≠ "" →
                 default "" (data.columns d !! i) ≠ default "" (data.columns d !! j))
    as Hpos.
  { intros i j Hij Hi E.
    destruct (data.columns d !! i) as [a|] eqn:Ei; [|done].
    destruct (data.columns d !! j) as [b|] eqn:Ej; simpl in *; [|done].
    subst b. by pose proof (NoDup_lookup _ _ _ _ Hnd Ei Ej). }
  destruct k1, k2; try done; simpl in Hne, Heq;
    rewrite ?autofill_field, ?autofill_resource in Hne;
    rewrite ?autofill_field, ?autofill_resource in Heq;
    simpl in Hne, Heq; try done; by eapply Hpos in Heq.
Qed.

(** C3, as it holds: the mapping an upload fills in from an empty one
    names mutually distinct columns when the column names of the dataset
    are unique; the page does not keep it so: setting any select to any
    column leaves [canAnalyze] true, whatever the other fields hold. *)
Theorem distinct_columns_only_by_autofill (d : data.t) (k : key) (v : string) (s : App) :
  (mapping s = mapping init → NoDup (data.columns d) →
   distinct_columns (mapping (onUpload_settle (Succeeded d) s))) ∧
  (v ≠ "" → truthy (canAnalyze s) = true →
   truthy (canAnalyze (onSelect k v s)) = true).
Proof.
  split.
  - intros Em Hnd. simpl. rewrite Em. by apply autofill_empty_distinct.
  - apply onSelect_keeps_canAnalyze.
Qed.

(** C3 fails once the user sets two selects to the same column: the
    analysis can be requested with [case_id] and [activity] both on
    ["case"]. *)
Lemma same_column_for_two_fields :
  ∃ c, reachable same_column_twice c ∧
       truthy (canAnalyze (app c)) = true ∧
       case_id (mapping (app c)) = "case" ∧
       activity (mapping (app c)) = "case" ∧
       ¬ distinct_columns (mapping (app c)).
Proof.
  exists (after same_column_twice). split; [by vm_compute|]. repeat split.
  intros H. by apply (H Kcase_id Kactivity).
Qed.

(** ** The "Top variants" card *)

Lemma li_object (ps : list (string * value)) :
  renderable (prop "variant" ps) = true →
  renderable (prop "cases" ps) = true →
  li (VObj ps) = Some (prop "variant" ps, prop "cases" ps).
Proof. intros Hv Hc. simpl. by rewrite Hv, Hc. Qed.

Lemma StronglySorted_take {A} (R : relation A) (n : nat) (l : list A) :
  StronglySorted R l → StronglySorted R (take n l).
Proof.
  rewrite <- (take_drop n l) at 1. apply StronglySorted_app_1_l.
Qed.

Lemma li_entries (entries : list value) (items : list (value * value)) :
  Forall2 (fun entry item =>
             ∃ ps, entry = VObj ps ∧ item = (prop "variant" ps, prop "cases" ps))
          entries items →
  Forall item_renderable items →
  Forall2 (fun entry item => li entry = Some item) entries items.
Proof.
  induction 1 as [|entry item entries items (ps & -> & ->) _ IH];
    intros Hitems; [constructor|].
  apply Forall_cons in Hitems as [[Hv Hc] Hitems].
  constructor; [by apply li_object | by apply IH].
Qed.

(** The card, on a response whose [variants] are objects with a [variant]
    and a [cases] property. *)
Lemma topVariants_first_five
    (props : list (string * value)) (entries : list value)
    (items : list (value * value)) :
  "variants" ∈ props.*1 →
  prop "variants" props = VArr entries →
  Forall2 (fun entry item =>
             ∃ ps, entry = VObj ps ∧ item = (prop "variant" ps, prop "cases" ps))
          entries items →
  Forall item_renderable items →
  topVariants props = Rendered (take 5 items).
Proof.
  intros Hin Hprop Hentries Hitems. unfold topVariants.
  rewrite bool_decide_eq_true_2 by done. rewrite Hprop. unfold slice0.
  rewrite (mapM_Some_2 li (take 5 entries) (take 5 items)); [done|].
  by apply Forall2_take, li_entries.
Qed.

(** C5, as it holds: when the results section renders, its "Top variants"
    card lists, for each of the first 5 entries of the [variants] list of
    the response, the activity sequence of the variant and its number of
    cases, in the order of the response: the first 5 of the top 20 when the
    response is a top 20, by descending number of cases with ties in the
    order the variants were first observed when the response is ordered
    so. *)
Theorem top_variants_lists_first_five
    (props : list (string * value)) (entries : list value)
    (items : list (value * value)) :
  "variants" ∈ props.*1 →
  prop "variants" props = VArr entries →
  Forall2 (fun entry item =>
             ∃ ps, entry = VObj ps ∧ item = (prop "variant" ps, prop "cases" ps))
          entries items →
  Forall item_renderable items →
  throws (statisticsCard props) = false →
  lists_top 5 (VObj props) items ∧
  ∀ statistics shown,
    resultsSection (VObj props) = Rendered (statistics, Some shown) →
    shown = take 5 items ∧
    length shown = min 5 (length items) ∧
    (∀ all, items = take 20 all → shown = take 5 all) ∧
    (StronglySorted more_cases items → StronglySorted more_cases shown) ∧
    (∀ first_seen, StronglySorted (ranked first_seen) items →
                   StronglySorted (ranked first_seen) shown).
Proof.
  intros Hin Hprop Hentries Hitems Hstat.
  assert (resultsSection (VObj props)
          = Rendered (shown (statisticsCard props), Some (take 5 items))) as Hsec.
  { unfold resultsSection. cbn [truthy].
    rewrite Hstat, (topVariants_first_five props entries items) by done.
    done. }
  split; [by eexists|].
  intros statistics rendered Hr. rewrite Hsec in Hr. injection Hr as _ <-.
  split; [done|]. split; [by rewrite length_take|]. split; [|split].
  - intros all ->. by rewrite take_take.
  - apply StronglySorted_take.
  - intros first_seen. apply StronglySorted_take.
Qed.

(** C5 fails on a response of six variants: the section lists five of
    them, not the six that a bound of 20 keeps. *)
Lemma card_lists_five_of_six_variants :
  resultsSection six_variants = Rendered (None, Some (take 5 six_items)) ∧
  take 20 six_items = six_items ∧
  ¬ lists_top 20 six_variants six_items.
Proof.
  repeat split. intros [statistics H]. by vm_compute in H.
Qed.

(** ** The preview served by the back end *)

Lemma length_previewRows (s : App) : length (previewRows s) = length (preview s).
Proof.
  unfold previewRows. destruct (preview s); [done|]. simpl. by rewrite length_map.
Qed.

(** Only the body of a successful upload changes [preview]. *)
Lemma step_preview (e : event) (c c' : config) :
  step e c = Some c' →
  preview (app c') = preview (app c) ∨
  ∃ d, e = UploadSettled (Succeeded d) ∧ preview (app c') = data.preview d.
Proof.
  intros He. destruct e; simpl in He.
  - injection He as <-. by left.
  - case_bool_decide; [|done]. injection He as <-. by left.
  - case_bool_decide; [|done]. injection He as <-. by left.
  - destruct (upload_disabled (app c)); [done|].
    unfold onUpload_begin in He.
    destruct (file (app c)); injection He as <-; by left.
  - destruct (pending c) as [[]|]; try done. injection He as <-.
    destruct r as [msg|text parsed|d]; [by left..|]. right. by exists d.
  - destruct (analyze_disabled (app c)); [done|]. injection He as <-. by left.
  - destruct (pending c) as [[]|]; try done. injection He as <-.
    destruct r; by left.
Qed.

Section Served.

Variable parse_table : File -> option (list string * list row).
Variable fresh_id : nat -> string.

Lemma Upload_preview (f : File) (st st1 : Backend.Store) (d : data.t) :
  Backend.Upload parse_table fresh_id f st = (inr d, st1) →
  ∃ table, parse_table f = Some table ∧ data.preview d = take 20 table.2.
Proof.
  unfold Backend.Upload. destruct (parse_table f) as [table|]; [|done].
  destruct table.1; [done|]. simpl. intros [= <- _]. by exists table.
Qed.

Lemma sys_step_capped (e : Backend.sys_event) (sc sc' : Backend.Store * config) :
  Backend.sys_step parse_table fresh_id e sc = Some sc' →
  length (preview (app sc.2)) ≤ 20 → length (preview (app sc'.2)) ≤ 20.
Proof.
  destruct sc as [st c], sc' as [st' c']. simpl. intros He Hcap.
  destruct e as [e| |message].
  - assert (step e c = Some c' ∧ ∀ d, e ≠ UploadSettled (Succeeded d)) as [Hs Hne].
    { destruct e as [| | | |[| |]| |]; try done;
        (destruct (step _ c) as [c1|] eqn:Hs; simpl in He; [|done]);
        injection He as _ <-; by split. }
    apply step_preview in Hs as [->|(d & -> & _)]; [done|]. by destruct (Hne d).
  - destruct (pending c) as [[f|]|]; try done.
    destruct (Backend.Upload parse_table fresh_id f st) as [[err|d] st1] eqn:Hu; [done|].
    apply Upload_preview in Hu as (table & _ & Hd).
    simpl in He. injection He as _ <-. simpl. rewrite Hd, length_take. lia.
  - destruct (pending c) as [[f|]|]; try done.
    destruct (Backend.Upload parse_table fresh_id f st) as [[err|d] st1]; [done|].
    simpl in He. by injection He as _ <-.
Qed.

Lemma sys_run_capped (tr : list Backend.sys_event) (sc sc' : Backend.Store * config) :
  Backend.sys_run parse_table fresh_id tr sc = Some sc' →
  length (preview (app sc.2)) ≤ 20 → length (preview (app sc'.2)) ≤ 20.
Proof.
  revert sc. induction tr as [|e tr IH]; intros sc Hrun Hcap; simpl in Hrun.
  - by injection Hrun as <-.
  - destruct (Backend.sys_step parse_table fresh_id e sc) as [sc1|] eqn:He; [|done].
    eapply IH; [done|]. by eapply sys_step_capped.
Qed.

Lemma sys_step_preview (e : Backend.sys_event) (sc sc' : Backend.Store * config) :
  Backend.sys_step parse_table fresh_id e sc = Some sc' →
  preview (app sc'.2) = preview (app sc.2) ∨
  ∃ f table, parse_table f = Some table ∧
             preview (app sc'.2) = take 20 table.2.
Proof.
  destruct sc as [st c], sc' as [st' c']. simpl. intros He.
  destruct e as [e| |message].
  - assert (step e c = Some c' ∧ ∀ d, e ≠ UploadSettled (Succeeded d)) as [Hs Hne].
    { destruct e as [| | | |[| |]| |]; try done;
        (destruct (step _ c) as [c1|] eqn:Hs; simpl in He; [|done]);
        injection He as _ <-; by split. }
    apply step_preview in Hs as [->|(d & -> & _)]; [by left|]. by destruct (Hne d).
  - destruct (pending c) as [[f|]|]; try done.
    destruct (Backend.Upload parse_table fresh_id f st) as [[err|d] st1] eqn:Hu; [done|].
    apply Upload_preview in Hu as (table & Ht & Hd).
    simpl in He. injection He as _ <-. right. exists f, table. by rewrite <- Hd.
  - destruct (pending c) as [[f|]|]; try done.
    destruct (Backend.Upload parse_table fresh_id f st) as [[err|d] st1]; [done|].
    simpl in He. injection He as _ <-. by left.
Qed.

Lemma sys_run_preview (tr : list Backend.sys_event) (sc sc' : Backend.Store * config) :
  Backend.sys_run parse_table fresh_id tr sc = Some sc' →
  preview (app sc'.2) = preview (app sc.2) ∨
  ∃ f table, parse_table f = Some table ∧
             preview (app sc'.2) = take 20 table.2.
Proof.
  revert sc. induction tr as [|e tr IH]; intros sc Hrun; simpl in Hrun.
  - injection Hrun as <-. by left.
  - destruct (Backend.sys_step parse_table fresh_id e sc) as [sc1|] eqn:He; [|done].
    destruct (IH sc1 Hrun) as [->|?]; [|by right].
    by apply sys_step_preview in He.
Qed.

Lemma previewRows_cells (s : App) : previewRows s = map cells (preview s).
Proof. unfold previewRows. by destruct (preview s). Qed.

(** C6: in every state of the page served by the back end, the preview
    table renders the rows of [preview], which are the first 20 rows of an
    uploaded table (or none), so never more than 20; when an upload is
    served, the table renders the first 20 rows of the uploaded table, each
    as the texts of its cells. *)
Theorem preview_is_first_twenty_rows
    (tr : list Backend.sys_event) (st : Backend.Store) (c : config) :
  Backend.sys_reachable parse_table fresh_id tr (st, c) →
  length (previewRows (app c)) ≤ 20 ∧
  (previewRows (app c) = [] ∨
   ∃ f table,
     parse_table f = Some table ∧
     previewRows (app c)
     = map (fun r : row =>
              map (fun entry : string * scalar => print entry.2) (Object_entries r))
           (take 20 table.2)) ∧
  ∀ st' c',
    Backend.sys_step parse_table fresh_id Backend.Served (st, c) = Some (st', c') →
    ∃ f table,
      pending c = Some (PostUpload f) ∧
      parse_table f = Some table ∧
      preview (app c') = take 20 table.2 ∧
      previewRows (app c')
      = map (fun r : row =>
               map (fun entry : string * scalar => print entry.2) (Object_entries r))
            (take 20 table.2) ∧
      length (previewRows (app c')) = min 20 (length table.2).
Proof.
  intros Hr. split; [|split].
  - rewrite length_previewRows.
    apply (sys_run_capped tr (Backend.empty, start) (st, c) Hr). simpl. lia.
  - rewrite previewRows_cells.
    destruct (sys_run_preview tr (Backend.empty, start) (st, c) Hr)
      as [Hp|(f & table & Ht & Hp)]; simpl in Hp; rewrite Hp.
    + by left.
    + right. by exists f, table.
  - intros st' c' He. simpl in He.
    destruct (pending c) as [[f|]|] eqn:Hp; try done.
    destruct (Backend.Upload parse_table fresh_id f st) as [[err|d] st1] eqn:Hu; [done|].
    apply Upload_preview in Hu as (table & Ht & Hd).
    simpl in He. injection He as _ <-.
    exists f, table. split; [done|]. split; [done|]. split; [done|].
    rewrite previewRows_cells, length_map. simpl. rewrite Hd.
    split; [done | by rewrite length_take].
Qed.

End Served.

(** ** Isolation of the analyses in the orchestrator *)

Section Isolation.

Variables (EventLog MappingError Payload : Type).
Variable validate_and_map : Backend.Dataset -> Mapping -> MappingError + EventLog.
Variable malformed : string -> bool.
Variables discovery statistics variants : EventLog -> Backend.Outcome Payload.

Local Abbreviation invoke := (Backend.invoke discovery statistics variants).
Local Abbreviation run_all := (Backend.run_all discovery statistics variants).
Local Abbreviation Analyze :=
  (Backend.Analyze validate_and_map malformed discovery statistics variants).

(** The entry found under a requested name is the outcome of that
    analysis alone. *)
Lemma list_find_run_all (log : EventLog) (names : list string) (name : string) :
  name ∈ names →
  ∃ i, list_find (fun r : string * Backend.Outcome Payload => r.1 = name)
                 (run_all log names)
       = Some (i, (name, invoke log name)).
Proof.
  induction names as [|n names IH]; intros Hin; [by apply elem_of_nil in Hin|].
  unfold Backend.run_all. simpl. case_decide as Hn.
  - simpl in Hn. subst n. by exists 0.
  - apply elem_of_cons in Hin as [->|Hin]; [done|].
    destruct (IH Hin) as [i Hi]. exists (S i).
    unfold Backend.run_all in Hi. by rewrite Hi.
Qed.

Lemma forallb_run_all_false (log : EventLog) (names : list string) (a : string) :
  a ∈ names →
  Backend.succeeded (invoke log a) = false →
  forallb (fun r : string * Backend.Outcome Payload => Backend.succeeded r.2)
          (run_all log names) = false.
Proof.
  intros Hin Hfail. apply not_true_is_false. intros Hall.
  rewrite forallb_forall in Hall.
  specialize (Hall (a, invoke log a)). simpl in Hall.
  rewrite Hall in Hfail; [done|].
  apply in_map_iff. exists a. split; [done|]. by apply list_elem_of_In.
Qed.

Lemma existsb_run_all_true (log : EventLog) (names : list string) (b : string) :
  b ∈ names →
  Backend.succeeded (invoke log b) = true →
  existsb (fun r : string * Backend.Outcome Payload => Backend.succeeded r.2)
          (run_all log names) = true.
Proof.
  intros Hin Hok. apply existsb_exists. exists (b, invoke log b).
  split; [|done]. apply in_map_iff. exists b. split; [done|].
  by apply list_elem_of_In.
Qed.

Lemma filter_unknown_nil (names : list string) :
  Forall (fun name => name ∈ Backend.known_names) names →
  filter (fun name => name ∉ Backend.known_names) names = [].
Proof.
  induction 1 as [|n names Hn _ IH]; [done|].
  rewrite filter_cons. case_decide; [done|exact IH].
Qed.

(** C7: in a request for several analyses whose dataset resolves and whose
    mapping is valid, if one analysis fails, the response still holds, for
    every requested analysis, the outcome of that analysis alone, so the
    payload of every other one that succeeds; and the overall status is
    [partial] as soon as another one succeeds. *)
Theorem failed_analysis_is_isolated
    (st : Backend.Store) (req : Backend.Request) (ds : Backend.Dataset)
    (log : EventLog) (a : string) :
  let names := Backend.req_analyses req in
  malformed (Backend.req_dataset_id req) = false →
  Forall (fun name => name ∈ Backend.known_names) names →
  Backend.get (Backend.req_dataset_id req) st = Some ds →
  validate_and_map ds (Backend.req_mapping req) = inr log →
  a ∈ names →
  Backend.succeeded (invoke log a) = false →
  ∃ resp,
    Analyze st req = inr resp ∧
    (∀ b, b ∈ names → Backend.result_for b resp = Some (invoke log b)) ∧
    (∀ b payload, b ∈ names → invoke log b = Backend.Success payload →
                  Backend.result_for b resp = Some (Backend.Success payload)) ∧
    ((∃ b, b ∈ names ∧ Backend.succeeded (invoke log b) = true) →
     Backend.status resp = Backend.partial) ∧
    ((∃ b, b ∈ names ∧ b ≠ a) →
     (∀ b, b ∈ names → b ≠ a → Backend.succeeded (invoke log b) = true) →
     Backend.status resp = Backend.partial).
Proof.
  intros names. subst names. intros Hid Hknown Hget Hmap Ha Hfail.
  set (names := Backend.req_analyses req) in *.
  set (rs := run_all log names).
  assert (∀ b, b ∈ names →
            Backend.result_for b
              {| Backend.status := Backend.overall rs;
                 Backend.results := rs;
                 Backend.failure := @None (Backend.RequestError MappingError) |}
            = Some (invoke log b)) as Hfor.
  { intros b Hb. unfold Backend.result_for. simpl.
    destruct (list_find_run_all log names b Hb) as [i Hi]. subst rs. by rewrite Hi. }
  assert ((∃ b, b ∈ names ∧ Backend.succeeded (invoke log b) = true) →
          Backend.overall rs = Backend.partial) as Hpartial.
  { intros (b & Hb & Hok). unfold Backend.overall. subst rs.
    rewrite (forallb_run_all_false log names a Ha Hfail).
    by rewrite (existsb_run_all_true log names b Hb Hok). }
  exists {| Backend.status := Backend.overall rs;
            Backend.results := rs;
            Backend.failure := None |}.
  split; [|split; [exact Hfor|split; [|split]]].
  - unfold Backend.Analyze, Backend.run. fold names.
    rewrite (filter_unknown_nil names Hknown), Hid, Hget, Hmap.
    destruct names; [by apply elem_of_nil in Ha | done].
  - intros b payload Hb Hok. rewrite <- Hok. by apply Hfor.
  - exact Hpartial.
  - intros (b & Hb & Hne) Hall. apply Hpartial. exists b. split; [done|].
    by apply Hall.
Qed.

End Isolation.

(** * The theorems on sample runs *)

(** Runs of the sample traces are evaluated. *)
Ltac evaluate := vm_compute; reflexivity.

Lemma analyses_distinct_and_known_witness :
  reachable two_clicks (after two_clicks) ∧
  NoDup (analyses (app (after two_clicks))) ∧
  analyses (app (after two_clicks)) = ["discovery"; "statistics"; "variants"].
Proof.
  split; [evaluate|]. split; [|evaluate].
  apply (analyses_distinct_and_known two_clicks (after two_clicks)). evaluate.
Defined.

Lemma mapping_names_uploaded_columns_witness :
  reachable same_column_twice (after same_column_twice) ∧
  length (uploads same_column_twice) ≤ 1 ∧
  names_columns_of_dataset same_column_twice (app (after same_column_twice)).
Proof.
  split; [evaluate|]. split; [simpl; lia|].
  apply (mapping_names_uploaded_columns same_column_twice (after same_column_twice));
    [evaluate | simpl; lia].
Defined.

Lemma distinct_columns_only_by_autofill_witness :
  distinct_columns (mapping (onUpload_settle (Succeeded orders) init)) ∧
  truthy (canAnalyze
            (onSelect Kactivity "case" (app (after same_column_twice)))) = true.
Proof.
  pose proof (distinct_columns_only_by_autofill orders Kactivity "case" init) as [H _].
  pose proof (distinct_columns_only_by_autofill orders Kactivity "case"
                (app (after same_column_twice))) as [_ H'].
  split.
  - apply H; [evaluate | compute_done].
  - apply H'; [discriminate | evaluate].
Defined.

Lemma top_variants_lists_first_five_witness :
  lists_top 5 six_variants six_items ∧
  StronglySorted (ranked sample_first_seen) (take 5 six_items).
Proof.
  assert (Forall2 (fun entry item =>
                     ∃ ps, entry = VObj ps ∧
                           item = (prop "variant" ps, prop "cases" ps))
                  (map entry_of six_items) six_items) as Hentries.
  { repeat constructor; eexists; split; evaluate. }
  assert (Forall item_renderable six_items) as Hitems.
  { repeat (apply Forall_cons; split; [by split|]). by apply Forall_nil. }
  pose proof (top_variants_lists_first_five
                [("variants", VArr (map entry_of six_items))]
                (map entry_of six_items) six_items
                ltac:(compute_done) eq_refl Hentries Hitems eq_refl)
    as (H1 & H2).
  split; [exact H1|].
  assert (resultsSection (VObj [("variants", VArr (map entry_of six_items))])
          = Rendered (None, Some (take 5 six_items))) as Hr by evaluate.
  destruct (H2 None (take 5 six_items) Hr) as (_ & _ & _ & _ & H5).
  apply H5. unfold six_items.
  repeat (apply SSorted_cons;
          [|repeat (apply Forall_cons; split; [left; by compute|]);
            by apply Forall_nil]).
  apply SSorted_nil.
Defined.

Lemma preview_is_first_twenty_rows_witness :
  Backend.sys_reachable sample_parse sample_id served_once (sys_after served_once) ∧
  length (long_table.2) = 25 ∧
  previewRows (app (sys_after served_once).2)
  = replicate 20 ["null"; "12.5"; "c1"] ∧
  length (previewRows (app (sys_after served_once).2)) ≤ 20.
Proof.
  split; [evaluate|]. split; [evaluate|]. split; [evaluate|].
  apply (preview_is_first_twenty_rows sample_parse sample_id served_once
           (sys_after served_once).1 (sys_after served_once).2).
  evaluate.
Defined.

Lemma failed_analysis_is_isolated_witness :
  ∃ resp,
    Backend.Analyze sample_validate (fun _ => false)
      (sample_analysis "discovery") (sample_analysis "statistics")
      (sample_analysis "variants") sample_store sample_request = inr resp ∧
    Backend.status resp = Backend.partial ∧
    Backend.result_for "discovery" resp = Some (Backend.Success 0) ∧
    Backend.result_for "variants" resp = Some (Backend.Success 0).
Proof.
  destruct (failed_analysis_is_isolated (list row) string nat sample_validate
              (fun _ => false)
              (sample_analysis "discovery") (sample_analysis "statistics")
              (sample_analysis "variants")
              sample_store sample_request
              {| Backend.dataset_id := "ds0";
                 Backend.ds_columns := ["case"; "act"; "time"];
                 Backend.ds_rows := [];
                 Backend.ds_preview := [] |}
              [] "statistics")
    as (resp & HA & _ & Hpay & Hst & _).
  - evaluate.
  - compute_done.
  - evaluate.
  - evaluate.
  - compute_done.
  - evaluate.
  - exists resp. split; [exact HA|]. split; [|split].
    + apply Hst. exists "discovery". split; [compute_done | evaluate].
    + apply Hpay; [compute_done | evaluate].
    + apply Hpay; [compute_done | evaluate].
Defined.

Lemma upload_autofills_by_position_witness :
  is_Some (file chosen) ∧
  mapping (onUpload (Succeeded orders) chosen) =
  {| case_id := "case"; activity := "act"; timestamp := "time"; resource := "" |}.
Proof.
  split; [by eexists|].
  pose proof (upload_autofills_by_position orders chosen ltac:(by eexists))
    as (H1 & H2 & H3 & H4).
  destruct (mapping (onUpload (Succeeded orders) chosen)); simpl in *.
  by rewrite H1, H2, H3, H4.
Defined.

Lemma failed_upload_keeps_dataset_witness :
  is_Some (file chosen) ∧
  thrown (@Failed data.t "x"
            (Some (VObj [("detail", VStr "Fichier vide")]))) = Some "Fichier vide" ∧
  error (onUpload (Failed "x" (Some (VObj [("detail", VStr "Fichier vide")]))) chosen)
  = "Upload impossible: Fichier vide".
Proof.
  split; [by eexists|]. split; [evaluate|].
  apply (failed_upload_keeps_dataset
           (Failed "x" (Some (VObj [("detail", VStr "Fichier vide")])))
           "Fichier vide" chosen); [by eexists | evaluate].
Defined.

Lemma analysis_settles_in_one_of_two_states_witness :
  reachable upload_then_analyze (after upload_then_analyze) ∧
  step (AnalysisSettled (Rejected "Failed to fetch")) (after upload_then_analyze)
  = Some (after (upload_then_analyze ++ [AnalysisSettled (Rejected "Failed to fetch")])) ∧
  loading (app (after (upload_then_analyze ++ [AnalysisSettled (Rejected "Failed to fetch")])))
  = false.
Proof.
  assert (reachable upload_then_analyze (after upload_then_analyze)) as Hr
    by evaluate.
  assert (step (AnalysisSettled (Rejected "Failed to fetch")) (after upload_then_analyze)
          = Some (after (upload_then_analyze ++ [AnalysisSettled (Rejected "Failed to fetch")])))
    as Hs by evaluate.
  split; [exact Hr|]. split; [exact Hs|].
  exact (proj1 (analysis_settles_in_one_of_two_states upload_then_analyze
                  (after upload_then_analyze)
                  (after (upload_then_analyze ++ [AnalysisSettled (Rejected "Failed to fetch")]))
                  (Rejected "Failed to fetch") Hr Hs)).
Defined.

(** * Further properties of the page *)

(** ** One request at a time *)

Lemma upload_disabled_loading (s : App) :
  upload_disabled s = false → loading s = false.
Proof. unfold upload_disabled. by intros [_ ?]%orb_false_iff. Qed.

Lemma analyze_disabled_loading (s : App) :
  analyze_disabled s = false → loading s = false.
Proof. unfold analyze_disabled. by intros [_ ?]%orb_false_iff. Qed.

Lemma step_busy (e : event) (c c' : config) :
  busy c → step e c = Some c' → busy c'.
Proof.
  unfold busy. intros Hc He. destruct e; simpl in He.
  - by injection He as <-.
  - case_bool_decide; [|done]. by injection He as <-.
  - case_bool_decide; [|done]. by injection He as <-.
  - destruct (upload_disabled (app c)) eqn:Hd; [done|].
    unfold onUpload_begin in He. destruct (file (app c)).
    + injection He as <-. simpl. split; [by eexists | done].
    + by injection He as <-.
  - destruct (pending c) as [[]|]; try done. injection He as <-. simpl.
    split; [done | by intros [? ?]].
  - destruct (analyze_disabled (app c)); [done|]. injection He as <-. simpl.
    split; [by eexists | done].
  - destruct (pending c) as [[]|]; try done. injection He as <-. simpl.
    split; [done | by intros [? ?]].
Qed.

Lemma reachable_busy (tr : list event) (c : config) : reachable tr c → busy c.
Proof.
  apply (reachable_invariant busy).
  - split; [done | by intros [? ?]].
  - apply step_busy.
Qed.

(** X1: [loading] is true exactly while a request is awaited, and while
    one is awaited neither the upload button nor the analyse button can be
    pressed: the page never has two requests in flight. *)
Theorem one_request_at_a_time (tr : list event) (c : config) :
  reachable tr c →
  (loading (app c) = true ↔ is_Some (pending c)) ∧
  (is_Some (pending c) → step Submit c = None ∧ step Analyze c = None).
Proof.
  intros Hr. pose proof (reachable_busy tr c Hr) as Hb. split; [exact Hb|].
  intros Hp. apply Hb in Hp. simpl.
  unfold upload_disabled, analyze_disabled. rewrite Hp, !orb_true_r. done.
Qed.

(** ** What the page shows *)

Lemma ErrorBox_None (msg : string) : ErrorBox msg = None ↔ msg = "".
Proof.
  unfold ErrorBox. destruct (truthy (VStr msg)) eqn:Ht.
  - apply truthy_VStr in Ht. split; [done|]. by intros ->.
  - split; [|done]. intros _. destruct (decide (msg = "")) as [|N]; [done|].
    apply truthy_VStr in N. congruence.
Qed.

(** X2: while a request is awaited the page shows neither an error box
    nor a results section. *)
Theorem nothing_shown_while_loading (tr : list event) (c : config) :
  reachable tr c →
  loading (app c) = true →
  ErrorBox (error (app c)) = None ∧ resultsSection (result (app c)) = Absent.
Proof.
  intros Hr Hl. apply (reachable_busy tr c Hr) in Hl.
  destruct (reachable_awaiting tr c Hr Hl) as (_ & Hres & Herr).
  by rewrite Hres, Herr.
Qed.

Lemma step_result_without_error (e : event) (c c' : config) :
  awaiting c → result_without_error c → step e c = Some c' →
  result_without_error c'.
Proof.
  unfold result_without_error. intros Ha Hc He. destruct e; simpl in He.
  - by injection He as <-.
  - case_bool_decide; [|done]. by injection He as <-.
  - case_bool_decide; [|done]. by injection He as <-.
  - destruct (upload_disabled (app c)); [done|].
    unfold onUpload_begin in He. destruct (file (app c)); by injection He as <-.
  - destruct (pending c) as [[]|] eqn:Hp; try done. injection He as <-.
    destruct Ha as (_ & Hres & Herr); [by eexists|].
    destruct r; simpl; by rewrite ?Hres.
  - destruct (analyze_disabled (app c)); [done|]. by injection He as <-.
  - destruct (pending c) as [[]|] eqn:Hp; try done. injection He as <-.
    destruct Ha as (_ & Hres & Herr); [by eexists|].
    destruct r; simpl; by rewrite ?Hres, ?Herr.
Qed.

Lemma reachable_result_without_error (tr : list event) (c : config) :
  reachable tr c → result_without_error c.
Proof.
  intros Hr.
  apply (reachable_invariant (fun c => awaiting c ∧ result_without_error c))
    in Hr as [_ ?]; [done| |].
  - split; [by intros [? ?] | done].
  - intros e c1 c2 [Ha Hc] He. split.
    + by eapply step_awaiting.
    + by eapply step_result_without_error.
Qed.

(** X3: the page never shows an error box and a results section at the
    same time: whenever [error] is not empty, [result] is [null]. *)
Theorem error_and_results_exclude_each_other (tr : list event) (c : config) :
  reachable tr c →
  (error (app c) ≠ "" → result (app c) = VNull) ∧
  (ErrorBox (error (app c)) = None ∨ resultsSection (result (app c)) = Absent).
Proof.
  intros Hr. pose proof (reachable_result_without_error tr c Hr) as Hc.
  unfold result_without_error in Hc.
  assert (error (app c) ≠ "" → result (app c) = VNull) as Hne.
  { intros Herr. destruct (result (app c)); try done; by destruct Herr; apply Hc. }
  split; [exact Hne|].
  destruct (decide (error (app c) = "")) as [E|N].
  - left. by apply ErrorBox_None.
  - right. by rewrite (Hne N).
Qed.

Lemma step_known_error (e : event) (c c' : config) :
  known_error (error (app c)) → step e c = Some c' →
  known_error (error (app c')).
Proof.
  intros Hc He. destruct e; simpl in He.
  - by injection He as <-.
  - case_bool_decide; [|done]. by injection He as <-.
  - case_bool_decide; [|done]. by injection He as <-.
  - destruct (upload_disabled (app c)); [done|].
    unfold onUpload_begin in He.
    destruct (file (app c)); injection He as <-; [by left | done].
  - destruct (pending c) as [[]|]; try done. injection He as <-.
    destruct r; simpl; [right; left; by eexists..|done].
  - destruct (analyze_disabled (app c)); [done|]. injection He as <-. by left.
  - destruct (pending c) as [[]|]; try done. injection He as <-.
    destruct r; simpl; [right; right; by eexists..|done].
Qed.

(** X4: the only messages the error box ever shows are those of a failed
    upload, prefixed with ['Upload impossible: '], and those of a failed
    analysis, prefixed with ['Analyse impossible: ']. *)
Theorem error_box_shows_known_messages (tr : list event) (c : config) (msg : string) :
  reachable tr c →
  ErrorBox (error (app c)) = Some msg →
  msg = error (app c) ∧
  ((∃ m, msg = "Upload impossible: " +:+ m) ∨
   (∃ m, msg = "Analyse impossible: " +:+ m)).
Proof.
  intros Hr Hbox.
  assert (known_error (error (app c))) as Hk.
  { revert Hr. apply (reachable_invariant (fun c => known_error (error (app c)))).
    - by left.
    - apply step_known_error. }
  unfold ErrorBox in Hbox. destruct (truthy (VStr (error (app c)))) eqn:Ht; [|done].
  injection Hbox as <-. split; [done|].
  apply truthy_VStr in Ht. by destruct Hk as [?|?].
Qed.

(** X5: the dataset id only changes when a successful upload settles, and
    then the page is quiet: no result of the previous dataset and no error
    is left on display, and nothing is loading. *)
Theorem new_dataset_clears_the_page (tr : list event) (e : event) (c c' : config) :
  reachable tr c →
  step e c = Some c' →
  fileId (app c') ≠ fileId (app c) →
  (∃ d, e = UploadSettled (Succeeded d) ∧ fileId (app c') = data.file_id d) ∧
  result (app c') = VNull ∧ error (app c') = "" ∧ loading (app c') = false.
Proof.
  intros Hr He Hne. pose proof (reachable_awaiting tr c Hr) as Ha.
  destruct e; simpl in He.
  - injection He as <-. done.
  - case_bool_decide; [|done]. injection He as <-. done.
  - case_bool_decide; [|done]. injection He as <-. done.
  - destruct (upload_disabled (app c)); [done|].
    unfold onUpload_begin in He. destruct (file (app c)); injection He as <-; done.
  - destruct (pending c) as [[]|] eqn:Hp; try done. injection He as <-.
    destruct Ha as (_ & Hres & Herr); [by eexists|].
    destruct r as [msg|text parsed|d]; [done..|]. simpl.
    split; [by exists d|]. done.
  - destruct (analyze_disabled (app c)); [done|]. injection He as <-. done.
  - destruct (pending c) as [[]|]; try done. injection He as <-.
    by destruct r.
Qed.

(** ** The requests sent *)

Lemma step_analyses_ok (e : event) (c c' : config) :
  analyses_ok c → step e c = Some c' → analyses_ok c'.
Proof.
  unfold analyses_ok. intros [Hnd Hsub] He. destruct e; simpl in He.
  - by injection He as <-.
  - case_bool_decide; [|done]. by injection He as <-.
  - case_bool_decide as Hn; [|done]. injection He as <-. simpl.
    split; [by apply onCheck_distinct | by apply onCheck_known].
  - destruct (upload_disabled (app c)); [done|].
    unfold onUpload_begin in He. destruct (file (app c)); by injection He as <-.
  - destruct (pending c) as [[]|]; try done. injection He as <-. by destruct r.
  - destruct (analyze_disabled (app c)); [done|]. by injection He as <-.
  - destruct (pending c) as [[]|]; try done. injection He as <-. by destruct r.
Qed.

Lemma step_sent_ok (e : event) (c c' : config) :
  analyses_ok c → sent_ok c → step e c = Some c' → sent_ok c'.
Proof.
  unfold sent_ok. intros [Hnd Hsub] Hc He. destruct e; simpl in He.
  - by injection He as <-.
  - case_bool_decide; [|done]. by injection He as <-.
  - case_bool_decide; [|done]. by injection He as <-.
  - destruct (upload_disabled (app c)); [done|].
    unfold onUpload_begin in He. destruct (file (app c)); by injection He as <-.
  - destruct (pending c) as [[]|]; try done. by injection He as <-.
  - destruct (analyze_disabled (app c)) eqn:Hd; [done|]. injection He as <-.
    simpl. intros id m names [= <- <- <-]. split; [done|].
    apply orb_false_iff in Hd as [Hd _]. apply negb_false_iff in Hd.
    apply truthy_canAnalyze in Hd as (? & ? & ? & ? & ?).
    by repeat split.
  - destruct (pending c) as [[]|]; try done. by injection He as <-.
Qed.

(** X6: every request the page sends to [/analyze] carries a non-empty
    dataset id, non-empty [case_id], [activity] and [timestamp], and a
    non-empty list of distinct names among discovery, statistics and
    variants, so three names at most; and while it is awaited the page
    still holds the dataset it was sent for. *)
Theorem analyze_requests_are_sendable
    (tr : list event) (c : config) (id : string) (m : Mapping) (names : list string) :
  reachable tr c →
  pending c = Some (PostAnalyze id m names) →
  id = fileId (app c) ∧ sendable id m names ∧ length names ≤ 3.
Proof.
  intros Hr Hp.
  assert (id = fileId (app c) ∧ sendable id m names) as [Hid Hs];
    [|split; [done|split; [done|]];
      destruct Hs as (_ & _ & _ & _ & _ & Hnd & Hsub);
      by apply (submseteq_length _ _ (NoDup_submseteq _ _ Hnd Hsub))].
  revert Hp.
  apply (reachable_invariant (fun c => analyses_ok c ∧ sent_ok c)) in Hr
    as [_ Hs]; [by apply Hs| |].
  - split; [|done]. split; [compute_done | done].
  - intros e c1 c2 [Ha Hs] He. split.
    + by eapply step_analyses_ok.
    + by eapply step_sent_ok.
Qed.

(** ** The dataset on the page *)

Lemma step_page_data (h : list data.t) (e : event) (c c' : config) :
  page_data h c → step e c = Some c' → page_data (h ++ uploads [e]) c'.
Proof.
  intros Hc He.
  assert (∀ s', fileId s' = fileId (app c) → columns s' = columns (app c) →
                preview s' = preview (app c) → mapping s' = mapping (app c) →
                page_data (h ++ []) {| app := s'; pending := pending c' |})
    as Hsame.
  { intros s' Ef Ec Ep Em. rewrite app_nil_r. unfold page_data in *. simpl.
    by rewrite Ef, Ec, Ep, Em. }
  destruct e; simpl in He.
  - injection He as <-. by apply Hsame.
  - case_bool_decide as Hv; [|done]. injection He as <-.
    destruct Hv as [Hcols _]. rewrite app_nil_r.
    unfold page_data in *. simpl. destruct (last h); [done|].
    by destruct Hc as (_ & ? & _).
  - case_bool_decide; [|done]. injection He as <-. by apply Hsame.
  - destruct (upload_disabled (app c)); [done|].
    unfold onUpload_begin in He. destruct (file (app c)).
    + injection He as <-. by apply Hsame.
    + injection He as <-. destruct c. by apply Hsame.
  - destruct (pending c) as [[]|]; try done. injection He as <-.
    destruct r as [msg|text parsed|d]; [by apply Hsame..|].
    unfold page_data. simpl. by rewrite last_snoc.
  - destruct (analyze_disabled (app c)); [done|]. injection He as <-.
    by apply Hsame.
  - destruct (pending c) as [[]|]; try done. injection He as <-.
    destruct r; by apply Hsame.
Qed.

Lemma reachable_page_data (tr : list event) (c : config) :
  reachable tr c → page_data (uploads tr) c.
Proof.
  intros Hr.
  by apply (run_invariant page_data step_page_data tr [] start c).
Qed.

(** X7: before the first successful upload the page holds no dataset: the
    id, the columns, the preview and the mapping are empty, no select can
    be changed and the analysis cannot be requested. *)
Theorem no_analysis_before_an_upload (tr : list event) (c : config) :
  reachable tr c →
  uploads tr = [] →
  fileId (app c) = "" ∧ columns (app c) = [] ∧ preview (app c) = [] ∧
  mapping (app c) = mapping init ∧
  step Analyze c = None ∧
  ∀ k v, step (Select k v) c = None.
Proof.
  intros Hr Hu. apply reachable_page_data in Hr. unfold page_data in Hr.
  rewrite Hu in Hr. simpl in Hr. destruct Hr as (Ef & Ec & Ep & Em).
  repeat split; try done.
  - simpl. unfold analyze_disabled, canAnalyze, js_and. by rewrite Ef.
  - intros k v. simpl. rewrite Ec. by rewrite bool_decide_eq_false_2 by tauto.
Qed.

(** X8: the dataset id, the columns offered by the selects and the rows of
    the preview table always come from one and the same response: that of
    the latest successful upload. *)
Theorem page_holds_the_latest_upload (tr : list event) (c : config) (d : data.t) :
  reachable tr c →
  last (uploads tr) = Some d →
  fileId (app c) = data.file_id d ∧
  columns (app c) = data.columns d ∧
  preview (app c) = data.preview d ∧
  length (previewRows (app c)) = length (data.preview d).
Proof.
  intros Hr Hl. apply reachable_page_data in Hr. unfold page_data in Hr.
  rewrite Hl in Hr. destruct Hr as (Ef & Ec & Ep).
  repeat split; try done. by rewrite length_previewRows, Ep.
Qed.

(** ** Filling the mapping *)

Lemma column_non_empty (cols : list string) (i : nat) :
  default "" (cols !! i) ≠ "" ↔ ∃ col, cols !! i = Some col ∧ col ≠ "".
Proof.
  destruct (cols !! i) as [col|]; simpl.
  - split; [by exists col | by intros (? & [= <-] & ?)].
  - split; [done | by intros (? & ? & _)].
Qed.

(** X9: after the first successful upload, with the mapping still empty
    and an analysis selected, the analysis can be requested at once, with
    no select touched, exactly when the response has a non-empty id and its
    first three columns exist and have non-empty names. *)
Theorem first_upload_enables_analysis (d : data.t) (s : App) :
  is_Some (file s) →
  mapping s = mapping init →
  analyses s ≠ [] →
  truthy (canAnalyze (onUpload (Succeeded d) s)) = true ↔
  data.file_id d ≠ "" ∧
  ∀ i, i < 3 → ∃ col, data.columns d !! i = Some col ∧ col ≠ "".
Proof.
  intros Hf Em Ha. rewrite onUpload_with_file by done.
  rewrite truthy_canAnalyze. unfold well_formed. simpl.
  rewrite !autofill_field, Em. simpl. rewrite !column_non_empty.
  split.
  - intros (? & H0 & H1 & H2 & _). split; [done|].
    intros i Hi. destruct i as [|[|[|i]]]; [done..|lia].
  - intros (? & Hcols). repeat split; [done|apply Hcols; lia..|done].
Qed.

(** X10: uploading the same dataset again changes nothing in the mapping:
    filling in from a response is idempotent. *)
Theorem autofill_idempotent (d : data.t) (m : Mapping) :
  autofill d (autofill d m) = autofill d m.
Proof.
  assert (∀ prev i,
    str_of (js_or (js_or
      (VStr (str_of (js_or (js_or (VStr prev) (index (data.columns d) i)) (VStr ""))))
      (index (data.columns d) i)) (VStr ""))
    = str_of (js_or (js_or (VStr prev) (index (data.columns d) i)) (VStr "")))
    as Hfield.
  { intros prev i. rewrite !autofill_field.
    destruct (decide (prev = "")) as [->|N]; destruct (decide _); done. }
  unfold autofill. simpl. f_equal; [apply Hfield..|].
  by rewrite !autofill_resource.
Qed.

(** ** The check boxes *)

(** X11: after a change of a check box, [analyses] includes its name
    exactly if the box was checked, and includes every other name exactly
    if it did before. *)
Theorem check_box_sets_one_name (name other : string) (checked : bool) (current : list string) :
  includes name (onCheck name checked current) = checked ∧
  (other ≠ name →
   includes other (onCheck name checked current) = includes other current).
Proof.
  unfold includes, onCheck. split.
  - destruct checked.
    + apply bool_decide_eq_true_2. set_solver.
    + apply bool_decide_eq_false_2. rewrite list_elem_of_filter. tauto.
  - intros Hne. apply bool_decide_ext. destruct checked.
    + rewrite elem_of_app, list_elem_of_singleton. tauto.
    + rewrite list_elem_of_filter. tauto.
Qed.

Lemma filter_ne_absent (name : string) (current : list string) :
  name ∉ current → filter (fun entry => entry ≠ name) current = current.
Proof.
  induction current as [|x l IH]; [done|].
  rewrite not_elem_of_cons. intros [Hx Hl]. rewrite filter_cons.
  rewrite decide_True by done. by rewrite IH.
Qed.

(** X12: checking a box and unchecking it again restores [analyses];
    unchecking a box and checking it again keeps the same names but moves
    the name of the box to the end of the list, so the order of the
    analyses sent is the order in which they were last checked. *)
Theorem check_box_round_trips (name : string) (current : list string) :
  (name ∉ current →
   onCheck name false (onCheck name true current) = current) ∧
  (name ∈ current → NoDup current →
   onCheck name true (onCheck name false current)
   = filter (fun entry => entry ≠ name) current ++ [name] ∧
   onCheck name true (onCheck name false current) ≡ₚ current).
Proof.
  unfold onCheck. split.
  - intros Hn. rewrite filter_app, filter_ne_absent by done.
    rewrite filter_cons, decide_False by (intros H; by apply H).
    by rewrite filter_nil, app_nil_r.
  - intros Hin Hnd. split; [done|].
    apply NoDup_Permutation.
    + apply NoDup_app. split; [by apply NoDup_filter|].
      split; [|apply NoDup_singleton].
      intros x [Hx _]%list_elem_of_filter ->%list_elem_of_singleton. done.
    + done.
    + intros x. rewrite elem_of_app, list_elem_of_filter, list_elem_of_singleton.
      destruct (decide (x = name)) as [->|]; tauto.
Qed.

(** ** The selects and the analyse button *)

(** X13: [resource] is optional: whatever its select is set to,
    [canAnalyze] is unchanged; setting the select of [case_id], [activity]
    or [timestamp] to its empty option makes [canAnalyze] falsy. *)
Theorem resource_is_optional (k : key) (v : string) (s : App) :
  canAnalyze (onSelect Kresource v s) = canAnalyze s ∧
  (k ≠ Kresource → truthy (canAnalyze (onSelect k "" s)) = false).
Proof.
  split; [done|]. intros Hk. apply not_true_is_false.
  rewrite truthy_canAnalyze. unfold well_formed.
  intros (_ & ? & ? & ? & _). by destruct k.
Qed.

(** X14: a failed upload leaves the analyse button as it was: the dataset
    loaded before can still be analysed. *)
Theorem failed_upload_keeps_analysis_available
    (r : reply data.t) (m : string) (s : App) :
  is_Some (file s) →
  loading s = false →
  thrown r = Some m →
  canAnalyze (onUpload r s) = canAnalyze s ∧
  analyze_disabled (onUpload r s) = analyze_disabled s.
Proof.
  intros Hf Hl Hm. rewrite onUpload_with_file by done.
  unfold analyze_disabled. rewrite Hl.
  destruct r as [msg|text parsed|body]; simpl in Hm; [| |done]; done.
Qed.

(** ** The message of a failed request *)

(** X15: the message of a response that is not ok is the [detail] of its
    body when the body is a JSON object whose [detail] is a string, and the
    raw text of the body when the body is not JSON, is [null], or is an
    object without a [detail] (or with a [null] one). *)
Theorem failed_response_message
    (A : Type) (text : string) (parsed : option value) :
  (∀ props d, parsed = Some (VObj props) → prop "detail" props = VStr d →
              thrown (@Failed A text parsed) = Some d) ∧
  ((parsed = None ∨ parsed = Some VNull ∨
    ∃ props, parsed = Some (VObj props) ∧
             (prop "detail" props = VUndefined ∨ prop "detail" props = VNull)) →
   thrown (@Failed A text parsed) = Some text).
Proof.
  split.
  - intros props d -> Hd. simpl. by rewrite Hd.
  - intros [->|[->|(props & -> & [Hd|Hd])]]; simpl; by rewrite ?Hd.
Qed.

(** ** The cards of the results section *)

Lemma topVariants_of_array (entries : list value) :
  topVariants [("variants", VArr entries)] =
  match mapM li (take 5 entries) with
  | Some items => Rendered items
  | None => Throws
  end.
Proof. reflexivity. Qed.

(** X16: the "Top variants" card reads the first five entries only: on a
    response whose [variants] is an array it throws exactly when one of
    those is [null] or has a [variant] or [cases] that is not a valid
    child; the entries after the fifth are never looked at, so replacing
    them by anything leaves the card as it is. *)
Theorem top_variants_reads_five_entries
    (props : list (string * value)) (entries : list value) :
  "variants" ∈ props.*1 →
  prop "variants" props = VArr entries →
  (topVariants props = Throws ↔
   ∃ entry, entry ∈ take 5 entries ∧ li entry = None) ∧
  (5 ≤ length entries →
   ∀ rest, topVariants [("variants", VArr (take 5 entries ++ rest))]
           = topVariants props).
Proof.
  intros Hin Hprop. split.
  - unfold topVariants. rewrite bool_decide_eq_true_2 by done.
    rewrite Hprop. unfold slice0.
    destruct (mapM li (take 5 entries)) as [items|] eqn:Hm.
    + split; [done|]. intros (entry & He & Hli).
      apply mapM_Some_1 in Hm.
      apply list_elem_of_lookup in He as [i Hi].
      destruct (Forall2_lookup_l _ _ _ _ _ Hm Hi) as (item & _ & Hitem).
      congruence.
    + split; [|done]. intros _.
      destruct (decide (Forall (fun e => is_Some (li e)) (take 5 entries)))
        as [Hall|Hnot].
      * apply mapM_is_Some_2 in Hall. rewrite Hm in Hall. by destruct Hall.
      * apply not_Forall_Exists in Hnot; [|apply _].
        apply Exists_exists in Hnot as (entry & He & Hno).
        exists entry. split; [done|]. unfold compose in Hno.
        destruct (li entry); [|done]. exfalso. apply Hno. by eexists.
  - intros Hlen rest. rewrite topVariants_of_array.
    unfold topVariants. rewrite bool_decide_eq_true_2 by done.
    rewrite Hprop. unfold slice0.
    rewrite take_app_le by (rewrite length_take; lia).
    by rewrite take_take.
Qed.

(** X17: the cards are not isolated from each other: when the response
    has a [statistics] property that is not an object with a
    [duration_seconds] (a failure descriptor, say), rendering the results
    section throws, whatever the [variants] are. *)
Theorem broken_statistics_break_the_section (props : list (string * value)) :
  "statistics" ∈ props.*1 →
  (∀ st, prop "statistics" props = VObj st →
         prop "duration_seconds" st = VUndefined ∨
         prop "duration_seconds" st = VNull) →
  statisticsCard props = Throws ∧
  resultsSection (VObj props) = Throws.
Proof.
  intros Hin Hst.
  assert (statisticsCard props = Throws) as Hcard.
  { unfold statisticsCard. rewrite bool_decide_eq_true_2 by done.
    destruct (prop "statistics" props) as [| | | | | |st] eqn:Hs; try done.
    by destruct (Hst st eq_refl) as [->| ->]. }
  split; [done|]. unfold resultsSection. cbn [truthy]. by rewrite Hcard.
Qed.

(** ** Failures are shown *)

(** X18: a request that fails is never silent: after a failed upload or a
    failed analysis the error box shows the prefixed message, also when the
    message of the failure itself is empty, and no results section. *)
Theorem failed_request_shows_error_box (m : string) (s : App) :
  (∀ r : reply data.t, is_Some (file s) → thrown r = Some m →
     ErrorBox (error (onUpload r s)) = Some ("Upload impossible: " +:+ m) ∧
     resultsSection (result (onUpload r s)) = Absent) ∧
  (∀ r : reply value, thrown r = Some m →
     ErrorBox (error (runAnalysis r s)) = Some ("Analyse impossible: " +:+ m) ∧
     resultsSection (result (runAnalysis r s)) = Absent).
Proof.
  split.
  - intros r Hf Hm. rewrite onUpload_with_file by done.
    destruct r as [msg|text parsed|body]; simpl in Hm; [| |done];
      injection Hm as <-; done.
  - intros r Hm.
    destruct r as [msg|text parsed|body]; simpl in Hm; [| |done];
      injection Hm as <-; done.
Qed.

Lemma concat_objects (objects : list (list (string * value))) :
  Forall (fun o : list (string * value) => "toString" ∉ o.*1) objects →
  mapM (fun item => match item with
                    | VUndefined | VNull => Some ""
                    | _ => ToString item
                    end) (map VObj objects)
  = Some (replicate (length objects) "[object Object]").
Proof.
  induction 1 as [|o objects Ho _ IH]; [done|].
  simpl. rewrite bool_decide_eq_false_2 by done. simpl.
  simpl in IH. by rewrite IH.
Qed.

Lemma concat_objects_throws (objects : list (list (string * value))) :
  Exists (fun o : list (string * value) => "toString" ∈ o.*1) objects →
  mapM (fun item => match item with
                    | VUndefined | VNull => Some ""
                    | _ => ToString item
                    end) (map VObj objects)
  = None.
Proof.
  induction 1 as [o objects Ho|o objects _ IH].
  - simpl. by rewrite bool_decide_eq_true_2 by done.
  - simpl. simpl in IH. rewrite IH. by destruct (bool_decide _).
Qed.

(** X19: when the [detail] of a response that is not ok is an array of
    objects, what they say is lost: the message is ['[object Object]'] once
    per object, joined by commas, when none of the objects has a [toString]
    property of its own; when one has, [new Error] throws and the message
    is that of its [TypeError]. *)
Theorem detail_objects_are_not_shown
    (A : Type) (text : string) (props : list (string * value))
    (objects : list (list (string * value))) :
  prop "detail" props = VArr (map VObj objects) →
  (Forall (fun o : list (string * value) => "toString" ∉ o.*1) objects →
   thrown (@Failed A text (Some (VObj props)))
   = Some (String.concat "," (replicate (length objects) "[object Object]"))) ∧
  (Exists (fun o : list (string * value) => "toString" ∈ o.*1) objects →
   thrown (@Failed A text (Some (VObj props))) = Some TypeError_message).
Proof.
  intros Hd. split; intros Ho; simpl; rewrite Hd; cbn [ToString].
  - by rewrite concat_objects.
  - by rewrite concat_objects_throws.
Qed.

(** * The further properties on sample runs *)

Lemma one_request_at_a_time_witness :
  reachable upload_begun (after upload_begun) ∧
  loading (app (after upload_begun)) = true ∧
  step Submit (after upload_begun) = None ∧
  step Analyze (after upload_begun) = None.
Proof.
  assert (reachable upload_begun (after upload_begun)) as Hr by evaluate.
  destruct (one_request_at_a_time upload_begun (after upload_begun) Hr) as [_ H].
  split; [exact Hr|]. split; [evaluate|]. apply H. by eexists.
Defined.

Lemma nothing_shown_while_loading_witness :
  reachable upload_begun (after upload_begun) ∧
  loading (app (after upload_begun)) = true ∧
  ErrorBox (error (app (after upload_begun))) = None ∧
  resultsSection (result (app (after upload_begun))) = Absent.
Proof.
  assert (reachable upload_begun (after upload_begun)) as Hr by evaluate.
  assert (loading (app (after upload_begun)) = true) as Hl by evaluate.
  split; [exact Hr|]. split; [exact Hl|].
  exact (nothing_shown_while_loading upload_begun (after upload_begun) Hr Hl).
Defined.

Lemma error_and_results_exclude_each_other_witness :
  reachable upload_failed (after upload_failed) ∧
  error (app (after upload_failed)) = "Upload impossible: Failed to fetch" ∧
  result (app (after upload_failed)) = VNull.
Proof.
  assert (reachable upload_failed (after upload_failed)) as Hr by evaluate.
  split; [exact Hr|]. split; [evaluate|].
  apply (proj1 (error_and_results_exclude_each_other upload_failed
                  (after upload_failed) Hr)).
  by vm_compute.
Defined.

Lemma error_box_shows_known_messages_witness :
  reachable upload_failed (after upload_failed) ∧
  ErrorBox (error (app (after upload_failed)))
  = Some "Upload impossible: Failed to fetch" ∧
  ((∃ m, "Upload impossible: Failed to fetch" = "Upload impossible: " +:+ m) ∨
   (∃ m, "Upload impossible: Failed to fetch" = "Analyse impossible: " +:+ m)).
Proof.
  assert (reachable upload_failed (after upload_failed)) as Hr by evaluate.
  assert (ErrorBox (error (app (after upload_failed)))
          = Some "Upload impossible: Failed to fetch") as Hb by evaluate.
  split; [exact Hr|]. split; [exact Hb|].
  exact (proj2 (error_box_shows_known_messages upload_failed
                  (after upload_failed) _ Hr Hb)).
Defined.

Lemma new_dataset_clears_the_page_witness :
  reachable upload_begun (after upload_begun) ∧
  step (UploadSettled (Succeeded orders)) (after upload_begun)
  = Some (after upload_done) ∧
  fileId (app (after upload_done)) = "f1" ∧
  result (app (after upload_done)) = VNull ∧
  error (app (after upload_done)) = "" ∧
  loading (app (after upload_done)) = false.
Proof.
  assert (reachable upload_begun (after upload_begun)) as Hr by evaluate.
  assert (step (UploadSettled (Succeeded orders)) (after upload_begun)
          = Some (after upload_done)) as Hs by evaluate.
  assert (fileId (app (after upload_done)) ≠ fileId (app (after upload_begun)))
    as Hne by (by vm_compute).
  split; [exact Hr|]. split; [exact Hs|]. split; [evaluate|].
  exact (proj2 (new_dataset_clears_the_page upload_begun _ _ _ Hr Hs Hne)).
Defined.

Lemma analyze_requests_are_sendable_witness :
  reachable upload_then_analyze (after upload_then_analyze) ∧
  pending (after upload_then_analyze)
  = Some (PostAnalyze "f1"
            {| case_id := "case"; activity := "act"; timestamp := "time";
               resource := "" |}
            ["discovery"; "statistics"; "variants"]) ∧
  sendable "f1"
    {| case_id := "case"; activity := "act"; timestamp := "time"; resource := "" |}
    ["discovery"; "statistics"; "variants"].
Proof.
  assert (reachable upload_then_analyze (after upload_then_analyze)) as Hr
    by evaluate.
  assert (pending (after upload_then_analyze)
          = Some (PostAnalyze "f1"
                    {| case_id := "case"; activity := "act"; timestamp := "time";
                       resource := "" |}
                    ["discovery"; "statistics"; "variants"])) as Hp by evaluate.
  split; [exact Hr|]. split; [exact Hp|].
  exact (proj1 (proj2 (analyze_requests_are_sendable upload_then_analyze
                         (after upload_then_analyze) _ _ _ Hr Hp))).
Defined.

Lemma no_analysis_before_an_upload_witness :
  reachable no_upload_yet (after no_upload_yet) ∧
  uploads no_upload_yet = [] ∧
  step Analyze (after no_upload_yet) = None.
Proof.
  assert (reachable no_upload_yet (after no_upload_yet)) as Hr by evaluate.
  split; [exact Hr|]. split; [reflexivity|].
  destruct (no_analysis_before_an_upload no_upload_yet (after no_upload_yet)
              Hr eq_refl) as (_ & _ & _ & _ & H & _).
  exact H.
Defined.

Lemma page_holds_the_latest_upload_witness :
  reachable two_uploads (after two_uploads) ∧
  last (uploads two_uploads) = Some tickets ∧
  fileId (app (after two_uploads)) = "f2" ∧
  columns (app (after two_uploads)) = ["id"; "step"; "when"].
Proof.
  assert (reachable two_uploads (after two_uploads)) as Hr by evaluate.
  split; [exact Hr|]. split; [reflexivity|].
  destruct (page_holds_the_latest_upload two_uploads (after two_uploads)
              tickets Hr eq_refl) as (H1 & H2 & _).
  split; [exact H1 | exact H2].
Defined.

Lemma first_upload_enables_analysis_witness :
  is_Some (file chosen) ∧ mapping chosen = mapping init ∧ analyses chosen ≠ [] ∧
  truthy (canAnalyze (onUpload (Succeeded orders) chosen)) = true.
Proof.
  assert (is_Some (file chosen)) as Hf by (by eexists).
  assert (analyses chosen ≠ []) as Ha by done.
  split; [exact Hf|]. split; [reflexivity|]. split; [exact Ha|].
  apply (proj2 (first_upload_enables_analysis orders chosen Hf eq_refl Ha)).
  split; [done|]. intros i Hi.
  destruct i as [|[|[|i]]]; [by eexists..|lia].
Defined.

Lemma check_box_sets_one_name_witness :
  includes "variants" (onCheck "variants" false (analyses init)) = false ∧
  includes "discovery" (onCheck "variants" false (analyses init)) = true.
Proof.
  destruct (check_box_sets_one_name "variants" "discovery" false (analyses init))
    as [H1 H2].
  split; [exact H1|]. rewrite H2; [reflexivity | discriminate].
Defined.

Lemma check_box_round_trips_witness :
  onCheck "variants" false (onCheck "variants" true ["discovery"]) = ["discovery"] ∧
  onCheck "discovery" true (onCheck "discovery" false (analyses init))
  = ["statistics"; "variants"; "discovery"].
Proof.
  split.
  - apply (proj1 (check_box_round_trips "variants" ["discovery"])).
    compute_done.
  - destruct (proj2 (check_box_round_trips "discovery" (analyses init)))
      as [H _]; [compute_done | compute_done |].
    rewrite H. reflexivity.
Defined.

Lemma resource_is_optional_witness :
  truthy (canAnalyze (onSelect Ktimestamp "" (app (after upload_done)))) = false.
Proof.
  apply (proj2 (resource_is_optional Ktimestamp "" (app (after upload_done)))).
  discriminate.
Defined.

Lemma failed_upload_keeps_analysis_available_witness :
  is_Some (file (app (after upload_done))) ∧
  loading (app (after upload_done)) = false ∧
  truthy (canAnalyze
            (onUpload (Rejected "Failed to fetch") (app (after upload_done))))
  = true.
Proof.
  assert (is_Some (file (app (after upload_done)))) as Hf by (by eexists).
  assert (loading (app (after upload_done)) = false) as Hl by evaluate.
  split; [exact Hf|]. split; [exact Hl|].
  rewrite (proj1 (failed_upload_keeps_analysis_available
                    (Rejected "Failed to fetch") "Failed to fetch"
                    (app (after upload_done)) Hf Hl eq_refl)).
  evaluate.
Defined.

Lemma failed_response_message_witness :
  thrown (@Failed value "raw" (Some (VObj refusal))) = Some "Fichier vide" ∧
  thrown (@Failed value "Bad Gateway" None) = Some "Bad Gateway".
Proof.
  destruct (failed_response_message value "raw" (Some (VObj refusal))) as [H1 _].
  destruct (failed_response_message value "Bad Gateway" None) as [_ H2].
  split.
  - apply (H1 refusal "Fichier vide"); reflexivity.
  - apply H2. by left.
Defined.

Lemma top_variants_reads_five_entries_witness :
  topVariants [("variants", VArr (take 5 (map entry_of six_items) ++ [VNull]))]
  = topVariants [("variants", VArr (map entry_of six_items))] ∧
  topVariants [("variants", VArr [VNull])] = Throws.
Proof.
  split.
  - apply (proj2 (top_variants_reads_five_entries
                    [("variants", VArr (map entry_of six_items))]
                    (map entry_of six_items)
                    ltac:(compute_done) eq_refl)).
    simpl. lia.
  - apply (proj1 (top_variants_reads_five_entries
                    [("variants", VArr [VNull])] [VNull]
                    ltac:(compute_done) eq_refl)).
    exists VNull. split; [simpl; constructor | reflexivity].
Defined.

Lemma broken_statistics_break_the_section_witness :
  topVariants statistics_failed = Rendered (take 5 six_items) ∧
  resultsSection (VObj statistics_failed) = Throws.
Proof.
  split; [evaluate|].
  apply (broken_statistics_break_the_section statistics_failed).
  - compute_done.
  - intros st [= <-]. by left.
Defined.

Lemma failed_request_shows_error_box_witness :
  is_Some (file chosen) ∧
  ErrorBox (error (onUpload (Rejected "") chosen)) = Some "Upload impossible: " ∧
  ErrorBox (error (runAnalysis (Rejected "") chosen)) = Some "Analyse impossible: ".
Proof.
  assert (is_Some (file chosen)) as Hf by (by eexists).
  destruct (failed_request_shows_error_box "" chosen) as [H1 H2].
  split; [exact Hf|]. split.
  - exact (proj1 (H1 (Rejected "") Hf eq_refl)).
  - exact (proj1 (H2 (Rejected "") eq_refl)).
Defined.

Lemma detail_objects_are_not_shown_witness :
  thrown (@Failed value "raw" (Some (VObj [("detail", VArr (map VObj two_objects))])))
  = Some "[object Object],[object Object]".
Proof.
  apply (proj1 (detail_objects_are_not_shown value "raw"
                  [("detail", VArr (map VObj two_objects))] two_objects eq_refl)).
  repeat (apply Forall_cons; split; [compute_done|]). by apply Forall_nil.
Defined.
